(** * stompest: asynchronous STOMP client, listeners and in-flight operations

    A shallow embedding of

    - [stompest/async/client.py]            (class [Stomp]),
    - [stompest/asynchronous/listener.py]   (the listener classes),
    - [stompest/asynchronous/tests/async_util.py] (the [InFlightOperations] tests)

    together with the properties of these that the specification states.

    Conventions.  Python objects that are shared and mutated (deferreds,
    header dictionaries) live in an explicit store and are referred to by
    address.  A call that may raise returns a [result].  Wall-clock readings
    and thresholds, which are floats in Python, are exact rationals here. *)

From Stdlib Require Import QArith Lqa.
From stdpp Require Import base option list gmap strings.
Local Close Scope Q_scope.

(** ** Python exceptions and results *)

Module Py.

(** The argument of a [KeyError]: the key that was missing, a string or a
    pair of strings (a subscription token), or the text the raiser gave. *)
Inductive arg : Type :=
| Str (s : string)
| Pair (a b : string).

Coercion Str : string >-> arg.
Bind Scope string_scope with arg.

Inductive exn : Type :=
| KeyError (key : arg)
| TypeError (msg : string)
| AttributeError (msg : string)
| RuntimeError (msg : string)
| ValueError (msg : string)
| AlreadyCalledError
| CancelledError
| StompConnectionError (msg : string)
| StompProtocolError (msg : string)
| StompCancelledError (msg : string)
| StompConnectTimeout (msg : string)
| TransportError (msg : string).

Inductive result (A : Type) : Type :=
| Return (a : A)
| Raise (e : exn).

Arguments Return {A} a.
Arguments Raise {A} e.

(** Values a deferred can fire with. *)
Inductive value : Type :=
| VNone
| VInt (z : Z).

(** The characters [repr] treats apart. *)
Definition QUOTE : Ascii.ascii := Ascii.ascii_of_nat 39.
Definition DQUOTE : Ascii.ascii := Ascii.ascii_of_nat 34.
Definition BACKSLASH : Ascii.ascii := Ascii.ascii_of_nat 92.
Definition TAB : Ascii.ascii := Ascii.ascii_of_nat 9.
Definition LF : Ascii.ascii := Ascii.ascii_of_nat 10.
Definition CR : Ascii.ascii := Ascii.ascii_of_nat 13.

(** [c in s] for a character. *)
Fixpoint has_char (c : Ascii.ascii) (s : string) : bool :=
  match s with
  | EmptyString => false
  | String a rest => Ascii.eqb a c || has_char c rest
  end.

Definition hex_digit (n : nat) : Ascii.ascii :=
  default (Ascii.ascii_of_nat 48) (String.get n "0123456789abcdef").

(** How [repr] writes one character of a byte string between [quote]s. *)
Definition repr_char (quote c : Ascii.ascii) : string :=
  let n := Ascii.nat_of_ascii c in
  if Ascii.eqb c quote || Ascii.eqb c BACKSLASH then String BACKSLASH (String c "")
  else if Ascii.eqb c TAB then String BACKSLASH "t"
  else if Ascii.eqb c LF then String BACKSLASH "n"
  else if Ascii.eqb c CR then String BACKSLASH "r"
  else if (n <? 32) || (127 <=? n)
       then String BACKSLASH
              ("x" +:+ String (hex_digit (n / 16)) (String (hex_digit (n mod 16)) ""))
  else String c "".

Fixpoint repr_chars (quote : Ascii.ascii) (s : string) : string :=
  match s with
  | EmptyString => EmptyString
  | String c rest => repr_char quote c +:+ repr_chars quote rest
  end.

(** [repr(s)] of a byte string: in single quotes, unless it holds a single
    quote and no double quote. *)
Definition repr_str (s : string) : string :=
  let quote := if has_char QUOTE s && negb (has_char DQUOTE s) then DQUOTE else QUOTE in
  String quote (repr_chars quote s +:+ String quote "").

(** [repr] of the argument of a [KeyError]. *)
Definition repr (a : arg) : string :=
  match a with
  | Str s => repr_str s
  | Pair a b => "(" +:+ repr_str a +:+ ", " +:+ repr_str b +:+ ")"
  end.

(** [str(e)]: the message of an exception made with one, the empty string
    for one made without, and for a [KeyError] the [repr] of its argument. *)
Definition str (e : exn) : string :=
  match e with
  | KeyError key => repr key
  | TypeError m | AttributeError m | RuntimeError m | ValueError m
  | StompConnectionError m | StompProtocolError m | StompCancelledError m
  | StompConnectTimeout m | TransportError m => m
  | AlreadyCalledError | CancelledError => ""
  end.

(** [isinstance(e, StompConnectionError)]: [StompConnectTimeout] is the one
    subclass. *)
Definition is_connection_error (e : exn) : bool :=
  match e with
  | StompConnectionError _ | StompConnectTimeout _ => true
  | _ => false
  end.

End Py.
Import Py.

(** ** Twisted: deferreds and the reactor's delayed calls *)

Module Twisted.

Inductive outcome : Type :=
| Fired (v : value)
| Failed (e : exn).

(** What a delayed call does when it runs: the bound methods the code hands
    to [reactor.callLater]. *)
Inductive action : Type :=
| DoCallback (d : nat) (v : value)
| DoErrback (d : nat) (e : exn)
| DoCancel (d : nat).

Definition target (a : action) : nat :=
  match a with
  | DoCallback d _ | DoErrback d _ | DoCancel d => d
  end.

Record delayedCall : Type := DelayedCall {
  call_id : nat;
  call_due : Q;
  call_action : action
}.

(** The store: the clock, the deferreds by address ([None] = not yet called)
    and the delayed calls in the order they were scheduled. *)
Record world : Type := World {
  now : Q;
  fresh : nat;
  deferreds : gmap nat (option outcome);
  delayed : list delayedCall
}.

Definition empty_world : world :=
  {| now := 0%Q; fresh := 0; deferreds := ∅; delayed := [] |}.

(** [defer.Deferred()] *)
Definition Deferred (w : world) : nat * world :=
  (fresh w,
   {| now := now w; fresh := S (fresh w);
      deferreds := <[fresh w := None]> (deferreds w); delayed := delayed w |}).

(** [d.called] *)
Definition called (d : nat) (w : world) : bool :=
  match deferreds w !! d with
  | Some (Some _) => true
  | _ => false
  end.

Definition set_outcome (d : nat) (o : outcome) (w : world) : world :=
  {| now := now w; fresh := fresh w;
     deferreds := <[d := Some o]> (deferreds w); delayed := delayed w |}.

(** [d.callback(v)] *)
Definition callback (d : nat) (v : value) (w : world) : result unit * world :=
  if called d w then (Raise AlreadyCalledError, w)
  else (Return (), set_outcome d (Fired v) w).

(** [d.errback(e)] *)
Definition errback (d : nat) (e : exn) (w : world) : result unit * world :=
  if called d w then (Raise AlreadyCalledError, w)
  else (Return (), set_outcome d (Failed e) w).

(** [d.cancel()]: a deferred without canceller fails with [CancelledError];
    cancelling a completed deferred does nothing. *)
Definition cancel (d : nat) (w : world) : world :=
  if called d w then w else set_outcome d (Failed CancelledError) w.

(** [reactor.callLater(delay, f, *args)] *)
Definition callLater (delay : Q) (a : action) (w : world) : nat * world :=
  (fresh w,
   {| now := now w; fresh := S (fresh w); deferreds := deferreds w;
      delayed := delayed w ++ [DelayedCall (fresh w) (now w + delay)%Q a] |}).

Definition active (id : nat) (w : world) : bool :=
  bool_decide (id ∈ call_id <$> delayed w).

Definition unschedule (id : nat) (w : world) : world :=
  {| now := now w; fresh := fresh w; deferreds := deferreds w;
     delayed := filter (λ c, call_id c ≠ id) (delayed w) |}.

(** The next delayed call to run: the one due first, the one scheduled first
    among those due at the same time. *)
Fixpoint earliest (l : list delayedCall) : option delayedCall :=
  match l with
  | [] => None
  | c :: l' =>
      match earliest l' with
      | None => Some c
      | Some c' => if Qle_bool (call_due c) (call_due c') then Some c else Some c'
      end
  end.

Definition exec (a : action) (w : world) : world :=
  match a with
  | DoCallback d v => snd (callback d v w)
  | DoErrback d e => snd (errback d e w)
  | DoCancel d => cancel d w
  end.

(** One reactor iteration: run the next delayed call, the clock moving on to
    its due time. *)
Definition fire (c : delayedCall) (w : world) : world :=
  let w1 := unschedule (call_id c) w in
  exec (call_action c)
    {| now := if Qle_bool (now w1) (call_due c) then call_due c else now w1;
       fresh := fresh w1; deferreds := deferreds w1; delayed := delayed w1 |}.

(** The reactor runs delayed calls until [d] has been called or nothing is
    left to run; [n] bounds the number of iterations and is instantiated with
    the number of delayed calls, none of which schedules another. *)
Fixpoint run_until (n : nat) (d : nat) (w : world) : world :=
  match n with
  | 0 => w
  | S n' =>
      if called d w then w
      else match earliest (delayed w) with
           | None => w
           | Some c => run_until n' d (fire c w)
           end
  end.

End Twisted.
Import Twisted.

(** ** [stompest.asynchronous.util]: [InFlightOperations], [WaitingDeferred] *)

Module InFlight.

(** Modelled from the spec: [stompest/asynchronous/util.py] is missing from
    the sources; only its test-suite [tests/async_util.py] is there.
    [WaitingDeferred.wait(timeout, fail)] suspends the caller until the
    deferred has been called or [timeout] has elapsed, in which case the
    deferred is failed with [fail] (spec 4.1).  The deferred holds no
    reference to a registry: [test_timeout] finds the key still registered
    after the wait has timed out.  The result is [None] when the caller is
    never resumed. *)
Definition wait (d : nat) (timeout : option Q) (fail : exn) (w : world)
  : option (result value) * world :=
  let '(timer, w1) :=
    match timeout with
    | Some t => let '(id, w') := callLater t (DoErrback d fail) w in (Some id, w')
    | None => (None, w)
    end in
  let w2 := run_until (length (delayed w1)) d w1 in
  let w3 :=
    match timer with
    | Some id => if active id w2 then unschedule id w2 else w2
    | None => w2
    end in
  (match deferreds w3 !! d with
   | Some (Some (Fired v)) => Some (Return v)
   | Some (Some (Failed e)) => Some (Raise e)
   | _ => None
   end, w3).

Section Registry.
Context {K : Type} `{Countable K}.

(** Modelled from the spec: the correlation registry of spec 4.1, a mutable
    mapping from keys to pending deferreds with at most one live entry per
    key; the interface is the one [test_dict_interface] exercises. *)
Record InFlightOperations : Type := Ops {
  info : string;
  waiting : gmap K nat
}.

Definition keys (op : InFlightOperations) : list K :=
  (map_to_list (waiting op)).*1.

(** Modelled from the spec: [op[key] = d] fails for a key that is already
    registered (spec 3, 4.1; a [KeyError] in [test_dict_interface]). *)
Definition setitem (key : K) (d : nat) (op : InFlightOperations)
  : result InFlightOperations :=
  match waiting op !! key with
  | Some _ => Raise (KeyError (info op +:+ " already in progress"))
  | None => Return {| info := info op; waiting := <[key := d]> (waiting op) |}
  end.

(** Modelled from the spec: [op[key]] *)
Definition getitem (key : K) (op : InFlightOperations) : result nat :=
  match waiting op !! key with
  | Some d => Return d
  | None => Raise (KeyError (info op +:+ " unknown"))
  end.

(** Modelled from the spec: [op.get(key, default)] *)
Definition get (key : K) (default : option nat) (op : InFlightOperations)
  : option nat :=
  match waiting op !! key with
  | Some d => Some d
  | None => default
  end.

(** Modelled from the spec: [op.pop(key)] *)
Definition pop (key : K) (op : InFlightOperations)
  : result (nat * InFlightOperations) :=
  match waiting op !! key with
  | Some d => Return (d, {| info := info op; waiting := delete key (waiting op) |})
  | None => Raise (KeyError (info op +:+ " unknown"))
  end.

(** Modelled from the spec: entering [with op(key, log) as waiting]: a fresh
    pending deferred is registered under [key] and handed to the body. *)
Definition enter (key : K) (op : InFlightOperations) (w : world)
  : result (nat * InFlightOperations) * world :=
  let '(d, w') := Deferred w in
  match setitem key d op with
  | Return op' => (Return (d, op'), w')
  | Raise e => (Raise e, w)
  end.

(** Modelled from the spec: leaving the [with] block, on every exit path
    (spec 4.1): a deferred that is still pending is completed, with [None]
    after a normal exit and with the exception otherwise; the key is removed;
    an exception of the body propagates ([test_context_single]). *)
Definition leave {A : Type} (key : K) (d : nat) (body : result A)
    (op : InFlightOperations) (w : world)
  : result A * InFlightOperations * world :=
  let w' :=
    if called d w then w
    else match body with
         | Return _ => snd (callback d VNone w)
         | Raise e => snd (errback d e w)
         end in
  match pop key op with
  | Return (_, op') => (body, op', w')
  | Raise e => (Raise e, op, w')
  end.

(** The whole [with op(key) as waiting: body] statement. *)
Definition scope {A : Type} (key : K)
    (body : nat → InFlightOperations → world → result A * InFlightOperations * world)
    (op : InFlightOperations) (w : world)
  : result A * InFlightOperations * world :=
  match enter key op w with
  | (Raise e, w') => (Raise e, op, w')
  | (Return (d, op1), w1) =>
      let '(r, op2, w2) := body d op1 w1 in
      leave key d r op2 w2
  end.

End Registry.

Arguments InFlightOperations K {_ _}.

End InFlight.

(** ** [listener.py]: [HeartBeatListener] *)

Module HeartBeat.

(** The two directions, the strings ['client'] and ['server'] of the code. *)
Inductive which : Type := client | server.

(** What goes to the transport: a heart-beat or a frame with a command. *)
Inductive frame : Type :=
| StompHeartBeat
| StompFrame (command : string).

Global Instance which_eq_dec : EqDecision which.
Proof. solve_decision. Defined.

(** What the listener reads of the session. *)
Record StompSession : Type := Session {
  clientHeartBeat : Z;
  serverHeartBeat : Z;
  lastSent : Q;
  lastReceived : Q
}.

(** [DEFAULT_THRESHOLDS = {'client': 0.8, 'server': 2.0}] *)
Definition DEFAULT_THRESHOLDS (wh : which) : Q :=
  match wh with
  | client => (8 # 10)%Q
  | server => (2 # 1)%Q
  end.

(** A delayed call [reactor.callLater(delay, self._beat, connection, which)]. *)
Record timer : Type := Timer {
  timer_id : nat;
  timer_delay : Q;
  timer_which : which
}.

(** The listener, the connection it serves and the reactor's heart-beat
    timers.  [clock] lists the successive readings of [time.time()] and
    [reads] counts those taken so far. *)
Record state : Type := State {
  clock : nat → Q;
  reads : nat;
  thresholds : which → Q;
  heartBeats : which → option nat;
  session : StompSession;
  wire : list frame;
  disconnects : list exn;
  timers : list timer;
  next_timer : nat
}.

(** [HeartBeatListener.__init__]: [thresholds or DEFAULT_THRESHOLDS],
    [_heartBeats = {}]. *)
Definition init (thr : option (which → Q)) (clk : nat → Q) (s : StompSession) : state :=
  {| clock := clk; reads := 0;
     thresholds := match thr with Some t => t | None => DEFAULT_THRESHOLDS end;
     heartBeats := λ _, None;
     session := s; wire := []; disconnects := []; timers := []; next_timer := 0 |}.

(** [time.time()] *)
Definition time_time (st : state) : Q * state :=
  (clock st (reads st),
   {| clock := clock st; reads := S (reads st); thresholds := thresholds st;
      heartBeats := heartBeats st; session := session st; wire := wire st;
      disconnects := disconnects st; timers := timers st;
      next_timer := next_timer st |}).

Definition set_session (s : StompSession) (st : state) : state :=
  {| clock := clock st; reads := reads st; thresholds := thresholds st;
     heartBeats := heartBeats st; session := s; wire := wire st;
     disconnects := disconnects st; timers := timers st;
     next_timer := next_timer st |}.

(** Modelled from the spec: [StompSession.sent()] of [stompest.protocol],
    which is not among the sources, stamps the last outbound activity
    (spec 3 and 4.3). *)
Definition sent (st : state) : state :=
  let '(t, st') := time_time st in
  set_session {| clientHeartBeat := clientHeartBeat (session st');
                 serverHeartBeat := serverHeartBeat (session st');
                 lastSent := t;
                 lastReceived := lastReceived (session st') |} st'.

(** Modelled from the spec: [StompSession.received()] stamps the last inbound
    activity. *)
Definition received (st : state) : state :=
  let '(t, st') := time_time st in
  set_session {| clientHeartBeat := clientHeartBeat (session st');
                 serverHeartBeat := serverHeartBeat (session st');
                 lastSent := lastSent (session st');
                 lastReceived := t |} st'.

(** [HeartBeatListener.onSend] *)
Definition onSend (st : state) : state := sent st.

(** [HeartBeatListener.onFrame] *)
Definition onFrame (st : state) : state := received st.

(** Modelled from the spec: [StompSession.beat()] makes the heart-beat
    frame. *)
Definition beat : frame := StompHeartBeat.

(** Modelled from the spec: [sendFrame] of the listener-based connection,
    which is not among the sources: the frame goes to the transport and every
    listener's [onSend] hook runs (spec 2 and 4.3: any frame sent, heart-beats
    included, updates outbound activity). *)
Definition sendFrame (f : frame) (st : state) : state :=
  onSend
    {| clock := clock st; reads := reads st; thresholds := thresholds st;
       heartBeats := heartBeats st; session := session st;
       wire := wire st ++ [f];
       disconnects := disconnects st; timers := timers st;
       next_timer := next_timer st |}.

(** Modelled from the spec: [disconnect(reason)] of the listener-based
    connection; the call and its reason are recorded. *)
Definition disconnect (reason : exn) (st : state) : state :=
  {| clock := clock st; reads := reads st; thresholds := thresholds st;
     heartBeats := heartBeats st; session := session st; wire := wire st;
     disconnects := disconnects st ++ [reason]; timers := timers st;
     next_timer := next_timer st |}.

(** [self._heartBeats.pop(which).cancel()] under [try: ... except: pass]: a
    missing key and a call that has already run are both passed over. *)
Definition pop_cancel (wh : which) (st : state) : state :=
  match heartBeats st wh with
  | None => st
  | Some id =>
      {| clock := clock st; reads := reads st; thresholds := thresholds st;
         heartBeats := λ x, if decide (x = wh) then None else heartBeats st x;
         session := session st; wire := wire st; disconnects := disconnects st;
         timers := filter (λ t, timer_id t ≠ id) (timers st);
         next_timer := next_timer st |}
  end.

(** [self._heartBeats[which] = reactor.callLater(remaining, self._beat, connection, which)] *)
Definition callLater (remaining : Q) (wh : which) (st : state) : state :=
  {| clock := clock st; reads := reads st; thresholds := thresholds st;
     heartBeats := λ x, if decide (x = wh) then Some (next_timer st) else heartBeats st x;
     session := session st; wire := wire st; disconnects := disconnects st;
     timers := timers st ++ [Timer (next_timer st) remaining wh];
     next_timer := S (next_timer st) |}.

(** [max(x, 0)] *)
Definition max0 (x : Q) : Q := if Qlt_le_dec x 0 then 0%Q else x.

(** [HeartBeatListener._beatRemaining] *)
Definition _beatRemaining (wh : which) (st : state) : Q * state :=
  let heartBeat :=
    match wh with
    | client => clientHeartBeat (session st)
    | server => serverHeartBeat (session st)
    end in
  if decide (heartBeat = 0%Z) then ((-1 # 1)%Q, st)
  else
    let last :=
      match wh with
      | client => lastSent (session st)
      | server => lastReceived (session st)
      end in
    let '(t, st') := time_time st in
    let elapsed := (t - last)%Q in
    (max0 (thresholds st wh * inject_Z heartBeat / (1000 # 1) - elapsed)%Q, st').

(** [HeartBeatListener._beat]; [connection] tells whether the argument is a
    connection or [None]. *)
Definition _beat (connection : bool) (wh : which) (st : state) : state :=
  let st := pop_cancel wh st in
  if negb connection then st
  else
    let '(remaining, st) := _beatRemaining wh st in
    if Qlt_le_dec remaining 0 then st
    else if Qeq_bool remaining 0 then
      match wh with
      | client =>
          let st := sendFrame beat st in
          let '(remaining, st) := _beatRemaining wh st in
          callLater remaining wh st
      | server =>
          disconnect (StompConnectionError "Server heart-beat timeout") st
      end
    else callLater remaining wh st.

(** [HeartBeatListener._beats] *)
Definition _beats (connection : bool) (st : state) : state :=
  _beat connection server (_beat connection client st).

(** [HeartBeatListener.onConnected] *)
Definition onConnected (st : state) : state := _beats true st.

(** [HeartBeatListener.onConnectionLost] *)
Definition onConnectionLost (st : state) : state := _beats false st.

(** The reactor runs the delayed call [id]: the call leaves the reactor and
    [_beat(connection, which)] runs.  Nothing happens for a call that is not
    pending. *)
Definition fire (id : nat) (st : state) : state :=
  match list_find (λ t, timer_id t = id) (timers st) with
  | None => st
  | Some (_, t) =>
      _beat true (timer_which t)
        {| clock := clock st; reads := reads st; thresholds := thresholds st;
           heartBeats := heartBeats st; session := session st; wire := wire st;
           disconnects := disconnects st;
           timers := filter (λ t', timer_id t' ≠ id) (timers st);
           next_timer := next_timer st |}
  end.

(** The reactor runs the delayed calls of [ids], in that order. *)
Definition fires (ids : list nat) (st : state) : state :=
  foldl (λ s id, fire id s) st ids.

(** No inbound check is pending and none is recorded. *)
Definition no_inbound_timer (st : state) : Prop :=
  heartBeats st server = None ∧ Forall (λ t, timer_which t = client) (timers st).

(** Every pending inbound check is the one the listener has on record. *)
Definition inbound_recorded (st : state) : Prop :=
  Forall (λ t, timer_which t = server → heartBeats st server = Some (timer_id t))
         (timers st).

End HeartBeat.

(** ** [listener.py]: [DisconnectListener] *)

Module Disconnect.

(** What the listener writes to its logger, [debug] records apart. *)
Inductive record : Type :=
| LogInfo (msg : string)
| LogError (reason : exn).

(** The listener with what it acts on: [connection.remove(self)],
    [connection.session.close(flush=...)] and the deferred
    [connection.disconnected] ([None] = not yet called). *)
Record state : Type := State {
  _disconnecting : bool;
  __disconnectReason : option exn;
  log : list record;
  removed : bool;
  closed : option bool;
  disconnected : option (result unit)
}.

(** The setter of the property [_disconnectReason]. *)
Definition set_disconnectReason (reason : option exn) (st : state) : state :=
  match reason with
  | None =>
      {| _disconnecting := _disconnecting st; __disconnectReason := None;
         log := log st; removed := removed st; closed := closed st;
         disconnected := disconnected st |}
  | Some r =>
      {| _disconnecting := _disconnecting st;
         __disconnectReason :=
           match __disconnectReason st with
           | None => Some r
           | Some r0 => Some r0
           end;
         log := log st ++ [LogError r]; removed := removed st;
         closed := closed st; disconnected := disconnected st |}
  end.

Definition info (msg : string) (st : state) : state :=
  {| _disconnecting := _disconnecting st;
     __disconnectReason := __disconnectReason st;
     log := log st ++ [LogInfo msg]; removed := removed st;
     closed := closed st; disconnected := disconnected st |}.

(** [DisconnectListener.onAdd] *)
Definition onAdd : state :=
  set_disconnectReason None
    {| _disconnecting := false; __disconnectReason := None; log := [];
       removed := false; closed := None; disconnected := None |}.

(** [DisconnectListener.onDisconnect] *)
Definition onDisconnect (reason : option exn) (st : state) : state :=
  let st := set_disconnectReason reason st in
  if _disconnecting st then st
  else
    info ("Disconnecting ..."
          +:+ match reason with
              | Some r => " [reason=" +:+ str r +:+ "]"
              | None => ""
              end)
      {| _disconnecting := true; __disconnectReason := __disconnectReason st;
         log := log st; removed := removed st; closed := closed st;
         disconnected := disconnected st |}.

(** [DisconnectListener.onConnectionLost]; [msg] is
    [reason.getErrorMessage()].  Firing a deferred twice raises. *)
Definition onConnectionLost (msg : string) (st : state) : result unit * state :=
  let st := info ("Disconnected: " +:+ msg) st in
  let st :=
    if _disconnecting st then st
    else set_disconnectReason
           (Some (StompConnectionError ("Unexpected connection loss [" +:+ msg +:+ "]")))
           st in
  let fired :=
    match __disconnectReason st with
    | Some r => Raise r
    | None => Return ()
    end in
  let st' signal :=
    {| _disconnecting := _disconnecting st;
       __disconnectReason := __disconnectReason st;
       log := log st; removed := true;
       closed := Some (bool_decide (__disconnectReason st = None));
       disconnected := signal |} in
  match disconnected st with
  | Some _ => (Raise AlreadyCalledError, st' (disconnected st))
  | None => (Return (), st' (Some fired))
  end.

(** The reasons handed to [onDisconnect], one call after the other. *)
Definition onDisconnects (reasons : list (option exn)) (st : state) : state :=
  foldl (λ s r, onDisconnect r s) st reasons.

(** The failures of [reasons] that come after its last null reason, given
    those, [acc], that came before the list and after a null. *)
Fixpoint since_null (reasons : list (option exn)) (acc : list exn) : list exn :=
  match reasons with
  | [] => acc
  | None :: rest => since_null rest []
  | Some r :: rest => since_null rest (acc ++ [r])
  end.

(** The failures written to the log with [log.error]. *)
Definition failures_logged (l : list record) : list exn :=
  omap (λ rec, match rec with LogError r => Some r | LogInfo _ => None end) l.

End Disconnect.

(** ** [listener.py]: [SubscriptionListener] *)

Module Subscription.

(** Modelled from the spec: the header names and acknowledgment modes of
    [StompSpec], which is not among the sources (spec 6). *)
Definition ACK_HEADER : string := "ack".
Definition MESSAGE_ID_HEADER : string := "message-id".
Definition CLIENT_ACK_MODES : list string := ["client"; "client-individual"].

(** [SubscriptionListener.DEFAULT_ACK_MODE] *)
Definition DEFAULT_ACK_MODE : string := "client-individual".

(** A frame holds its header dictionary by reference: [headers] is the
    address of the dictionary in the store. *)
Record StompFrame : Type := Frame {
  command : string;
  headers : nat;
  body : string
}.

(** The listener; [self] stands for its identity, [None] in [_headers] for
    Python's [None]. *)
Record SubscriptionListener : Type := Listener {
  self : nat;
  _ack : bool;
  _errorDestination : option string;
  _headers : option nat;
  _messages : InFlight.InFlightOperations string
}.

(** The store: the header dictionaries by address, the deferreds, and what
    the connection was asked to acknowledge. *)
Record store : Type := Store {
  dicts : gmap nat (gmap string string);
  world_of : world;
  acks : list StompFrame
}.

(** [SubscriptionListener.__init__], for a callable handler. *)
Definition init (id : nat) (ack : bool) (errorDestination : option string)
  : SubscriptionListener :=
  {| self := id; _ack := ack; _errorDestination := errorDestination;
     _headers := None;
     _messages := {| InFlight.info := "Handler for message"; InFlight.waiting := ∅ |} |}.

(** [d.setdefault(key, value)] *)
Definition setdefault (key value : string) (d : gmap string string)
  : gmap string string :=
  match d !! key with
  | Some _ => d
  | None => <[key := value]> d
  end.

(** [SubscriptionListener.onSubscribe] *)
Definition onSubscribe (frame : StompFrame) (context : nat)
    (l : SubscriptionListener) (s : store) : SubscriptionListener * store :=
  if negb (bool_decide (context = self l)) then (l, s)
  else match _headers l with
       | Some _ => (l, s)
       | None =>
           ({| self := self l; _ack := _ack l;
               _errorDestination := _errorDestination l;
               _headers := Some (headers frame);
               _messages := _messages l |},
            {| dicts := alter (setdefault ACK_HEADER DEFAULT_ACK_MODE)
                          (headers frame) (dicts s);
               world_of := world_of s; acks := acks s |})
       end.

(** The headers the listener holds, read through the reference. *)
Definition captured (l : SubscriptionListener) (s : store)
  : option (gmap string string) :=
  match _headers l with
  | Some a => dicts s !! a
  | None => None
  end.

(** [connection.ack(frame)] *)
Definition ack (frame : StompFrame) (s : store) : store :=
  {| dicts := dicts s; world_of := world_of s; acks := acks s ++ [frame] |}.

(** The [finally] clause of [onMessage]:
    [if self._ack and (self._headers[ACK_HEADER] in CLIENT_ACK_MODES)] then
    acknowledge; [if not waiting.called] then fire [waiting].  Subscripting
    [None] raises [TypeError], a missing key [KeyError]. *)
Definition finalize (frame : StompFrame) (waiting : nat)
    (l : SubscriptionListener) (s : store) : result unit * store :=
  let decision : result bool :=
    if negb (_ack l) then Return false
    else match _headers l with
         | None => Raise (TypeError "'NoneType' object is not subscriptable")
         | Some a =>
             match dicts s !! a ≫= λ d, d !! ACK_HEADER with
             | None => Raise (KeyError ACK_HEADER)
             | Some mode => Return (bool_decide (mode ∈ CLIENT_ACK_MODES))
             end
         end in
  match decision with
  | Raise e => (Raise e, s)
  | Return b =>
      let s := if b then ack frame s else s in
      (Return (),
       if called waiting (world_of s) then s
       else {| dicts := dicts s;
               world_of := snd (callback waiting VNone (world_of s));
               acks := acks s |})
  end.

(** [try: handler ... except Exception: onMessageFailed ... finally: ...]:
    [handler] is what the awaited handler came to, [failed] what the failure
    hook comes to for an exception.  An exception of the [finally] clause
    replaces the one under way. *)
Definition guarded (frame : StompFrame) (waiting : nat)
    (handler : result unit) (failed : exn → result unit)
    (l : SubscriptionListener) (s : store) : result unit * store :=
  let body :=
    match handler with
    | Return _ => Return ()
    | Raise e => failed e
    end in
  match finalize frame waiting l s with
  | (Raise e, s') => (Raise e, s')
  | (Return _, s') => (body, s')
  end.

(** [SubscriptionListener.onMessage] *)
Definition onMessage (frame : StompFrame) (context : nat)
    (handler : result unit) (failed : exn → result unit)
    (l : SubscriptionListener) (s : store)
  : result unit * SubscriptionListener * store :=
  if negb (bool_decide (context = self l)) then (Return (), l, s)
  else
    match dicts s !! headers frame ≫= λ d, d !! MESSAGE_ID_HEADER with
    | None => (Raise (KeyError MESSAGE_ID_HEADER), l, s)
    | Some id =>
        match InFlight.enter id (_messages l) (world_of s) with
        | (Raise e, w) =>
            (Raise e, l, {| dicts := dicts s; world_of := w; acks := acks s |})
        | (Return (waiting, ops), w) =>
            let '(r, s') :=
              guarded frame waiting handler failed l
                {| dicts := dicts s; world_of := w; acks := acks s |} in
            let '(r', ops', w') := InFlight.leave id waiting r ops (world_of s') in
            (r',
             {| self := self l; _ack := _ack l;
                _errorDestination := _errorDestination l;
                _headers := _headers l; _messages := ops' |},
             {| dicts := dicts s'; world_of := w'; acks := acks s' |})
        end
    end.

End Subscription.

(** ** [client.py]: [Stomp] *)

Module Client.


Record StompFrame : Type := Frame {
  command : string;
  headers : gmap string string;
  body : string
}.

(** A broker of the failover URI. *)
Record broker : Type := Broker {
  host : string;
  port : Z
}.

(** What iterating over [self._failover] yields: [(broker, delay)] pairs, and
    then the iteration stops or raises. *)
Inductive failover : Type :=
| Exhausted
| Raises (e : exn)
| Candidate (b : broker) (delay : Q) (rest : failover).

(** A subscription token [(header, value)], as ['%s=%s' % token] has it. *)
Abbreviation token := (string * string)%type.

(** [callable(handler)] holds of [Callable] only; of an object that is not
    callable, [shown] is what ['%s' % handler] comes to. *)
Inductive handler : Type :=
| Callable (h : nat)
| NotCallable (shown : string).

Record subscription : Type := Subscription {
  sub_destination : string;
  sub_handler : handler;
  sub_ack : bool;
  sub_errorDestination : option string
}.

Inductive level : Type := DEBUG | WARNING | ERROR.

(** The log records of the methods embedded here. *)
Inductive message : Type :=
| Delaying (delay : Q)
| Connecting (b : broker)
| CouldNotConnect (b : broker) (e : exn)
| EndpointConnectFailed
| SessionConnectFailed (e : exn)
| CannotUnsubscribe (t : token)
| AMQWorkaround.

(** [StompSpec.CLIENT_ACK_MODES], [Stomp.DEFAULT_ACK_MODE] *)
Definition CLIENT_ACK_MODES : list string := ["client"; "client-individual"].
Definition DEFAULT_ACK_MODE : string := "auto".

Section WithSession.

(** The session, [stompest.protocol.StompSession], is not among the
    sources: its state and the commands used here are taken as given, and so
    are [StompFrame.info] and what sending the CONNECT frame and
    [_waitConnected] come to on a transport. *)
Context {session : Type}.
Variable session_subscribe :
  session → string → gmap string string → handler → option string → option string
  → StompFrame * token * session.
Variable session_unsubscribe :
  session → token → option string → result (StompFrame * session).
Variable frame_info : StompFrame → string.
Variable handshake : nat → StompFrame → result unit.

(** The error that the wrapper [exclusive] of [disconnect] raises, see
    [exclusive] below. *)
Variable still_running : exn.

(** The client, the transports it talks to and the reactor.  [network] is
    what [endpoint.connect] comes to for the [n]th attempt, [sends] what went
    to [protocol.send], [lost] the transports told [loseConnection],
    [disconnects] the [failure] arguments of the calls of [self.disconnect]
    that were let in, [disconnect_running] whether such a call is still
    running. *)
Record Stomp : Type := Client {
  the_session : session;
  _failover : failover;
  __protocol : option nat;
  _connectedSignal : option nat;
  _subscriptions : gmap token subscription;
  log : list (level * message);
  network : nat → broker → result nat;
  attempts : nat;
  slept : list Q;
  sends : list (nat * StompFrame);
  lost : list nat;
  disconnects : list exn;
  disconnect_running : bool;
  reactor : world
}.

Definition write (lv : level) (m : message) (st : Stomp) : Stomp :=
  {| the_session := the_session st; _failover := _failover st; disconnect_running := disconnect_running st;
     __protocol := __protocol st; _connectedSignal := _connectedSignal st;
     _subscriptions := _subscriptions st; log := log st ++ [(lv, m)];
     network := network st; attempts := attempts st; slept := slept st;
     sends := sends st; lost := lost st; disconnects := disconnects st;
     reactor := reactor st |}.

(** The getter of the property [_protocol]. *)
Definition _protocol (st : Stomp) : result nat :=
  match __protocol st with
  | Some p => Return p
  | None => Raise (StompConnectionError "Not connected")
  end.

(** The setter of the property [_protocol]. *)
Definition set_protocol (p : option nat) (st : Stomp) : Stomp :=
  {| the_session := the_session st; _failover := _failover st; disconnect_running := disconnect_running st;
     __protocol := p; _connectedSignal := _connectedSignal st;
     _subscriptions := _subscriptions st; log := log st;
     network := network st; attempts := attempts st; slept := slept st;
     sends := sends st; lost := lost st; disconnects := disconnects st;
     reactor := reactor st |}.

(** [protocol.send(frame)] *)
Definition send (p : nat) (frame : StompFrame) (st : Stomp) : Stomp :=
  {| the_session := the_session st; _failover := _failover st; disconnect_running := disconnect_running st;
     __protocol := __protocol st; _connectedSignal := _connectedSignal st;
     _subscriptions := _subscriptions st; log := log st;
     network := network st; attempts := attempts st; slept := slept st;
     sends := sends st ++ [(p, frame)]; lost := lost st;
     disconnects := disconnects st; reactor := reactor st |}.

(** [protocol.loseConnection()] *)
Definition loseConnection (p : nat) (st : Stomp) : Stomp :=
  {| the_session := the_session st; _failover := _failover st; disconnect_running := disconnect_running st;
     __protocol := __protocol st; _connectedSignal := _connectedSignal st;
     _subscriptions := _subscriptions st; log := log st;
     network := network st; attempts := attempts st; slept := slept st;
     sends := sends st; lost := lost st ++ [p];
     disconnects := disconnects st; reactor := reactor st |}.

(** [Stomp._sleep] *)
Definition _sleep (delay : Q) (st : Stomp) : Stomp :=
  if Qeq_bool delay 0 then st
  else
    let st := write DEBUG (Delaying delay) st in
    {| the_session := the_session st; _failover := _failover st; disconnect_running := disconnect_running st;
       __protocol := __protocol st; _connectedSignal := _connectedSignal st;
       _subscriptions := _subscriptions st; log := log st;
       network := network st; attempts := attempts st;
       slept := slept st ++ [delay];
       sends := sends st; lost := lost st; disconnects := disconnects st;
       reactor := reactor st |}.

(** [endpoint.connect(...)], the next attempt. *)
Definition endpoint_connect (b : broker) (st : Stomp) : result nat * Stomp :=
  (network st (attempts st) b,
   {| the_session := the_session st; _failover := _failover st; disconnect_running := disconnect_running st;
      __protocol := __protocol st; _connectedSignal := _connectedSignal st;
      _subscriptions := _subscriptions st; log := log st;
      network := network st; attempts := S (attempts st); slept := slept st;
      sends := sends st; lost := lost st; disconnects := disconnects st;
      reactor := reactor st |}).

(** The loop of [Stomp._connectEndpoint] over what is left of the failover
    sequence.  A generator that ends without [returnValue] returns [None]. *)
Fixpoint connectEndpoint_loop (f : failover) (st : Stomp) : result (option nat) * Stomp :=
  match f with
  | Exhausted => (Return None, st)
  | Raises e => (Raise e, st)
  | Candidate b delay rest =>
      let st := _sleep delay st in
      let st := write DEBUG (Connecting b) st in
      match endpoint_connect b st with
      | (Raise e, st) => connectEndpoint_loop rest (write WARNING (CouldNotConnect b e) st)
      | (Return p, st) => (Return (Some p), st)
      end
  end.

(** [Stomp._connectEndpoint] *)
Definition _connectEndpoint (st : Stomp) : result (option nat) * Stomp :=
  connectEndpoint_loop (_failover st) st.

(** [Stomp.subscribe].  In [ack and (setdefault(...) in CLIENT_ACK_MODES)]
    the right operand is evaluated only when [ack] is true: only then does
    the frame get the default [ack] header. *)
Definition subscribe (destination : string) (h : handler)
    (hdrs : gmap string string) (receipt : option string) (ack : bool)
    (errorDestination : option string) (st : Stomp) : result token * Stomp :=
  match _protocol st with
  | Raise e => (Raise e, st)
  | Return p =>
      match h with
      | NotCallable shown =>
          (Raise (ValueError ("Cannot subscribe (handler is missing): " +:+ shown)), st)
      | Callable _ =>
          let '(frame, tok, s') :=
            session_subscribe (the_session st) destination hdrs h receipt errorDestination in
          let '(ack, frame) :=
            if ack then
              let mode := default DEFAULT_ACK_MODE (headers frame !! "ack") in
              (bool_decide (mode ∈ CLIENT_ACK_MODES),
               {| command := command frame;
                  headers := <["ack" := mode]> (headers frame);
                  body := body frame |})
            else (false, frame) in
          (Return tok,
           send p frame
             {| the_session := s'; _failover := _failover st;
                disconnect_running := disconnect_running st;
                __protocol := __protocol st; _connectedSignal := _connectedSignal st;
                _subscriptions :=
                  <[tok := Subscription destination h ack errorDestination]>
                    (_subscriptions st);
                log := log st; network := network st; attempts := attempts st;
                slept := slept st; sends := sends st; lost := lost st;
                disconnects := disconnects st; reactor := reactor st |})
      end
  end.

(** [Stomp.unsubscribe]: [self._subscriptions.pop(token)] raises
    [KeyError(token)] for a token that is not in the table. *)
Definition unsubscribe (tok : token) (receipt : option string) (st : Stomp)
  : result unit * Stomp :=
  match _protocol st with
  | Raise e => (Raise e, st)
  | Return p =>
      match session_unsubscribe (the_session st) tok receipt with
      | Raise e => (Raise e, st)
      | Return (frame, s') =>
          let st :=
            {| the_session := s'; _failover := _failover st; disconnect_running := disconnect_running st;
               __protocol := __protocol st; _connectedSignal := _connectedSignal st;
               _subscriptions := _subscriptions st; log := log st;
               network := network st; attempts := attempts st; slept := slept st;
               sends := sends st; lost := lost st; disconnects := disconnects st;
               reactor := reactor st |} in
          match _subscriptions st !! tok with
          | None =>
              (Raise (KeyError (Pair tok.1 tok.2)),
               write WARNING (CannotUnsubscribe tok) st)
          | Some _ =>
              (Return (),
               send p frame
                 {| the_session := the_session st; _failover := _failover st; disconnect_running := disconnect_running st;
                    __protocol := __protocol st;
                    _connectedSignal := _connectedSignal st;
                    _subscriptions := delete tok (_subscriptions st);
                    log := log st; network := network st; attempts := attempts st;
                    slept := slept st; sends := sends st; lost := lost st;
                    disconnects := disconnects st; reactor := reactor st |})
          end
      end
  end.

(** Modelled from the spec: [stompest.async.util.exclusive], the decorator
    of [Stomp.disconnect], is not among the sources.  A call made while an
    earlier one is still running fails at once (spec 4.4 and 5); a call that
    is let in is running from then on. *)
Definition exclusive (st : Stomp) : result unit * Stomp :=
  if disconnect_running st then (Raise still_running, st)
  else
    (Return (),
     {| the_session := the_session st; _failover := _failover st;
        __protocol := __protocol st; _connectedSignal := _connectedSignal st;
        _subscriptions := _subscriptions st; log := log st;
        network := network st; attempts := attempts st; slept := slept st;
        sends := sends st; lost := lost st; disconnects := disconnects st;
        disconnect_running := true; reactor := reactor st |}).

(** [self.disconnect(failure=...)] as [_onError] and [_onMessage] use it:
    the call is made, through the wrapper, and its deferred dropped. *)
Definition disconnect (failure : exn) (st : Stomp) : result unit * Stomp :=
  match exclusive st with
  | (Raise e, st) => (Raise e, st)
  | (Return _, st) =>
      (Return (),
       {| the_session := the_session st; _failover := _failover st;
          __protocol := __protocol st; _connectedSignal := _connectedSignal st;
          _subscriptions := _subscriptions st; log := log st;
          network := network st; attempts := attempts st; slept := slept st;
          sends := sends st; lost := lost st;
          disconnects := disconnects st ++ [failure];
          disconnect_running := disconnect_running st; reactor := reactor st |})
  end.


(** [Stomp.connect], from the CONNECT frame [session.connect] made on to the
    assignment of the transport; the replay of subscriptions that follows
    is left out.  [None.send] and [None.loseConnection] raise
    [AttributeError]; an exception raised in an [except] clause replaces the
    one handled there. *)
Definition connect (frame : StompFrame) (st : Stomp) : result unit * Stomp :=
  match _protocol st with
  | Return _ => (Raise (StompConnectionError "Already connected"), st)
  | Raise _ =>
      match _connectEndpoint st with
      | (Raise e, st) => (Raise e, write ERROR EndpointConnectFailed st)
      | (Return None, st) =>
          (Raise (AttributeError "'NoneType' object has no attribute 'loseConnection'"),
           write ERROR
             (SessionConnectFailed
                (AttributeError "'NoneType' object has no attribute 'send'")) st)
      | (Return (Some p), st) =>
          let st := send p frame st in
          match handshake p frame with
          | Raise e =>
              (Raise e, loseConnection p (write ERROR (SessionConnectFailed e) st))
          | Return _ => (Return (), set_protocol (Some p) st)
          end
      end
  end.

End WithSession.

(** The candidates of a failover sequence and how it ends. *)
Fixpoint candidates (f : failover) : list broker :=
  match f with
  | Candidate b _ rest => b :: candidates rest
  | _ => []
  end.

Fixpoint ending (f : failover) : result (option nat) :=
  match f with
  | Exhausted => Return None
  | Raises e => Raise e
  | Candidate _ _ rest => ending rest
  end.

(** The same client on another network. *)
Definition with_network {session : Type} (nw : nat → broker → result nat)
    (st : Stomp (session := session)) : Stomp (session := session) :=
  {| the_session := the_session st; _failover := _failover st; disconnect_running := disconnect_running st;
     __protocol := __protocol st; _connectedSignal := _connectedSignal st;
     _subscriptions := _subscriptions st; log := log st;
     network := nw; attempts := attempts st; slept := slept st;
     sends := sends st; lost := lost st; disconnects := disconnects st;
     reactor := reactor st |}.

(** The warnings of a log. *)
Definition warnings (l : list (level * message)) : list message :=
  omap (λ r, match r.1 with WARNING => Some r.2 | _ => None end) l.

End Client.

(** ** [listener.py]: [ConnectListener], [ErrorListener] *)

Module Listeners.

(** What the two listeners act on: the deferred the connect listener waits
    on, the listeners removed from the connection, and the reasons of the
    calls of [connection.disconnect]. *)
Record state : Type := State {
  _waiting : option nat;
  removed : list string;
  disconnects : list exn;
  reactor : world
}.

(** [ConnectListener.onConnectionLost] *)
Definition ConnectListener_onConnectionLost (reason : exn) (st : state) : state :=
  let st :=
    {| _waiting := _waiting st; removed := removed st ++ ["ConnectListener"];
       disconnects := disconnects st; reactor := reactor st |} in
  match _waiting st with
  | Some d =>
      if called d (reactor st) then st
      else {| _waiting := _waiting st; removed := removed st;
              disconnects := disconnects st;
              reactor := snd (errback d reason (reactor st)) |}
  | None => st
  end.

(** [ConnectListener.onError]; [info] is [frame.info()]. *)
Definition ConnectListener_onError (info : string) (st : state) : state :=
  ConnectListener_onConnectionLost
    (StompProtocolError ("While trying to connect, received " +:+ info)) st.

(** [ErrorListener.onError] *)
Definition ErrorListener_onError (info : string) (st : state) : state :=
  {| _waiting := _waiting st; removed := removed st;
     disconnects := disconnects st ++ [StompProtocolError ("Received " +:+ info)];
     reactor := reactor st |}.

End Listeners.

(** ** [HeartBeatListener]: the events it sees and what it keeps *)

Module HeartBeatEvents.
Import HeartBeat.

(** What happens to the listener: its hooks, and the reactor running one of
    its delayed calls. *)
Inductive event : Type :=
| Connected
| ConnectionLost
| FrameReceived
| FrameSent
| TimerFired (id : nat).

Definition step (st : state) (e : event) : state :=
  match e with
  | Connected => onConnected st
  | ConnectionLost => onConnectionLost st
  | FrameReceived => onFrame st
  | FrameSent => onSend st
  | TimerFired id => fire id st
  end.

Definition run (events : list event) (st : state) : state :=
  foldl step st events.

(** Every pending delayed call is the one on record for its direction, was
    handed out by the reactor, and no two share an id. *)
Definition recorded (st : state) : Prop :=
  NoDup (timer_id <$> timers st)
  ∧ Forall (λ t, heartBeats st (timer_which t) = Some (timer_id t)
                 ∧ timer_id t < next_timer st) (timers st).

(** Two states with the same delayed calls, on record and pending. *)
Definition same_timers (st st' : state) : Prop :=
  timers st' = timers st
  ∧ heartBeats st' = heartBeats st
  ∧ next_timer st' = next_timer st.

(** Two states with the same negotiated periods and thresholds. *)
Definition same_periods (st st' : state) : Prop :=
  clientHeartBeat (session st') = clientHeartBeat (session st)
  ∧ serverHeartBeat (session st') = serverHeartBeat (session st)
  ∧ thresholds st' = thresholds st.

End HeartBeatEvents.

(** ** [DisconnectListener]: what it tells the log *)

Module DisconnectLog.
Import Disconnect.

(** The messages written to the log with [log.info]. *)
Definition infos_logged (l : list record) : list string :=
  omap (λ rec, match rec with LogInfo m => Some m | LogError _ => None end) l.

End DisconnectLog.

(** ** [listener.py]: [ReceiptListener] and the rest of [ConnectListener] *)

Module Receipt.

(** [StompSpec.RECEIPT_HEADER] *)
Definition RECEIPT_HEADER : string := "receipt".

(** [ReceiptListener]: the timeout and the receipts waited for. *)
Record ReceiptListener : Type := Listener {
  _timeout : option Q;
  _receipts : InFlight.InFlightOperations string
}.

(** [ReceiptListener.__init__] *)
Definition init (timeout : option Q) : ReceiptListener :=
  {| _timeout := timeout;
     _receipts := {| InFlight.info := "Waiting for receipt"; InFlight.waiting := ∅ |} |}.

Section WithFormat.

(** ['%s' % timeout], the timeout as the error message shows it. *)
Variable show : option Q → string.

(** The error of a receipt that is late. *)
Definition late (receipt : string) (timeout : option Q) : exn :=
  StompCancelledError
    ("Receipt did not arrive on time: " +:+ receipt
     +:+ " [timeout=" +:+ show timeout +:+ "]").

(** [ReceiptListener.onSend]; [frame] is [None] for a frame that is false,
    and the headers of the frame otherwise.  The result is [None] when the
    wait never ends. *)
Definition onSend (frame : option (gmap string string)) (l : ReceiptListener)
    (w : world) : option (result unit) * ReceiptListener * world :=
  match frame with
  | None => (Some (Return ()), l, w)
  | Some hdrs =>
      match hdrs !! RECEIPT_HEADER with
      | None => (Some (Return ()), l, w)
      | Some receipt =>
          match InFlight.enter receipt (_receipts l) w with
          | (Raise e, w) => (Some (Raise e), l, w)
          | (Return (receiptArrived, ops), w) =>
              match InFlight.wait receiptArrived (_timeout l)
                      (late receipt (_timeout l)) w with
              | (None, w) =>
                  (None, {| _timeout := _timeout l; _receipts := ops |}, w)
              | (Some r, w) =>
                  let '(r', ops', w') :=
                    InFlight.leave receipt receiptArrived r ops w in
                  (Some match r' with
                        | Return _ => Return ()
                        | Raise e => Raise e
                        end,
                   {| _timeout := _timeout l; _receipts := ops' |}, w')
              end
          end
      end
  end.

End WithFormat.

(** [ReceiptListener.onReceipt] *)
Definition onReceipt (receipt : string) (l : ReceiptListener) (w : world)
  : result unit * world :=
  match InFlight.getitem receipt (_receipts l) with
  | Raise e => (Raise e, w)
  | Return d => callback d VNone w
  end.

(** The body of the loop of [onConnectionLost]. *)
Definition fail_pending (w : world) (waiting : nat) : world :=
  if called waiting w then w
  else (errback waiting
          (StompCancelledError "Receipt did not arrive (connection lost)") w).2.

(** [ReceiptListener.onConnectionLost] *)
Definition onConnectionLost (l : ReceiptListener) (w : world) : world :=
  foldl fail_pending w (map_to_list (InFlight.waiting (_receipts l))).*2.

End Receipt.

Module Connect.

(** [ConnectListener]: the deferred waited on ([None] after [onAdd]) and
    whether the listener is still on the connection. *)
Record ConnectListener : Type := Listener {
  _waiting : option nat;
  added : bool
}.

(** [ConnectListener.onAdd] *)
Definition onAdd : ConnectListener := {| _waiting := None; added := true |}.

Section WithFormat.

(** ['%s' % connectedTimeout] *)
Variable show : option Q → string.

(** [ConnectListener.onConnect]; the result is [None] when the wait never
    ends. *)
Definition onConnect (connectedTimeout : option Q) (l : ConnectListener)
    (w : world) : option (result unit) * ConnectListener * world :=
  let '(d, w) := Deferred w in
  let l := {| _waiting := Some d; added := added l |} in
  let '(r, w) :=
    InFlight.wait d connectedTimeout
      (StompCancelledError
         ("STOMP broker did not answer on time [timeout="
          +:+ show connectedTimeout +:+ "]")) w in
  (match r with
   | None => None
   | Some (Return _) => Some (Return ())
   | Some (Raise e) => Some (Raise e)
   end, l, w).

End WithFormat.

(** [ConnectListener.onConnected]: [None.callback] raises. *)
Definition onConnected (l : ConnectListener) (w : world)
  : result unit * ConnectListener * world :=
  let l' := {| _waiting := _waiting l; added := false |} in
  match _waiting l with
  | None =>
      (Raise (AttributeError "'NoneType' object has no attribute 'callback'"), l', w)
  | Some d => let '(r, w') := callback d VNone w in (r, l', w')
  end.

(** [ConnectListener.onConnectionLost] *)
Definition onConnectionLost (reason : exn) (l : ConnectListener) (w : world)
  : ConnectListener * world :=
  let l' := {| _waiting := _waiting l; added := false |} in
  match _waiting l with
  | None => (l', w)
  | Some d => if called d w then (l', w) else (l', (errback d reason w).2)
  end.

(** [ConnectListener.onError]; [info] is [frame.info()]. *)
Definition onError (info : string) (l : ConnectListener) (w : world)
  : ConnectListener * world :=
  onConnectionLost
    (StompProtocolError ("While trying to connect, received " +:+ info)) l w.

End Connect.

(** ** [client.py]: commands, MESSAGE frames and the wait for CONNECTED *)

Module ClientFrames.
Import Client.

(** A failover sequence that yields the pairs of [before] first. *)
Definition prepend (before : list (broker * Q)) (f : failover) : failover :=
  foldr (λ bd acc, Candidate bd.1 bd.2 acc) f before.

(** The delays the client sleeps for: those that are not 0. *)
Definition sleeps (delays : list Q) : list Q :=
  filter (λ d, Qeq_bool d 0 = false) delays.

(** [not errorDestination]: [None] and the empty string are false. *)
Definition given (errorDestination : option string) : option string :=
  match errorDestination with
  | Some EmptyString | None => None
  | Some dest => Some dest
  end.

(** What [_onMessage] tells the transport and the log. *)
Inductive note : Type :=
| HandlerStarted (messageId : string)
| HandlerFinished (messageId : string)
| NoHandlerFound (messageId : string)
| ErrorInHandler (e : exn).

Section WithSession.

(** The session, the frame constructors of [stompest.protocol.commands] and
    [stompest.util.cloneFrame] are not among the sources and are taken as
    given; so are the handlers of the subscriptions ([call h frame] is what
    calling handler [h] comes to) and the failure hook handed to the
    constructor. *)
Context {session : Type}.
Local Abbreviation client := (Stomp (session := session)).
Variable session_message : session → StompFrame → result token.
Variable session_ack : session → StompFrame → StompFrame.
Variable session_nack : session → StompFrame → StompFrame.
Variable session_begin : session → StompFrame * string * session.
Variable session_abort : session → string → StompFrame * string * session.
Variable session_commit : session → string → StompFrame * string * session.
Variable commands_send :
  string → string → gmap string string → option string → StompFrame.
Variable cloneFrame : StompFrame → StompFrame.
Variable call :
  nat → StompFrame → client
  → result unit * client.
Variable onMessageFailed :
  option (exn → StompFrame → option string → client
          → result unit * client).

(** The error of the wrapper of [disconnect], as in [Client]. *)
Variable still_running : exn.

(** [Stomp.sendFrame] *)
Definition sendFrame (frame : StompFrame) (st : client) : result unit * client :=
  match _protocol st with
  | Raise e => (Raise e, st)
  | Return p => (Return (), Client.send p frame st)
  end.

(** [Stomp.send]: [self._protocol] is evaluated before the frame is made. *)
Definition send (destination body : string) (hdrs : gmap string string)
    (receipt : option string) (st : client) : result unit * client :=
  match _protocol st with
  | Raise e => (Raise e, st)
  | Return p => (Return (), Client.send p (commands_send destination body hdrs receipt) st)
  end.

(** [Stomp.ack] *)
Definition ack (frame : StompFrame) (st : client) : result unit * client :=
  match _protocol st with
  | Raise e => (Raise e, st)
  | Return p => (Return (), Client.send p (session_ack (the_session st) frame) st)
  end.

(** [Stomp.nack] *)
Definition nack (frame : StompFrame) (st : client) : result unit * client :=
  match _protocol st with
  | Raise e => (Raise e, st)
  | Return p => (Return (), Client.send p (session_nack (the_session st) frame) st)
  end.

Definition with_session (s : session) (st : client) : client :=
  {| the_session := s; _failover := _failover st; disconnect_running := disconnect_running st; __protocol := __protocol st;
     _connectedSignal := _connectedSignal st; _subscriptions := _subscriptions st;
     log := log st; network := network st; attempts := attempts st;
     slept := slept st; sends := sends st; lost := lost st;
     disconnects := disconnects st; reactor := reactor st |}.

(** [Stomp.begin], [Stomp.abort], [Stomp.commit] *)
Definition transaction (cmd : session → StompFrame * string * session)
    (st : client) : result string * client :=
  match _protocol st with
  | Raise e => (Raise e, st)
  | Return p =>
      let '(frame, tok, s') := cmd (the_session st) in
      (Return tok, Client.send p frame (with_session s' st))
  end.

Definition begin (st : client) : result string * client :=
  transaction session_begin st.

Definition abort (transaction_id : string) (st : client) : result string * client :=
  transaction (λ s, session_abort s transaction_id) st.

Definition commit (transaction_id : string) (st : client) : result string * client :=
  transaction (λ s, session_commit s transaction_id) st.

(** [Stomp.sendToErrorDestination] *)
Definition sendToErrorDestination (frame : StompFrame)
    (errorDestination : option string) (st : client) : result unit * client :=
  match given errorDestination with
  | None => (Return (), st)
  | Some dest =>
      let errorMessage := cloneFrame frame in
      match send dest (body errorMessage) (headers errorMessage) None st with
      | (Raise e, st) => (Raise e, st)
      | (Return _, st) => ack frame st
      end
  end.

(** [Stomp._onMessageFailed] *)
Definition _onMessageFailed (failure : exn) (frame : StompFrame)
    (errorDestination : option string) (st : client) : result unit * client :=
  match onMessageFailed with
  | Some hook => hook failure frame errorDestination st
  | None => sendToErrorDestination frame errorDestination st
  end.

(** The handler of a subscription, called. *)
Definition call_handler (h : handler) (frame : StompFrame) (st : client)
  : result unit * client :=
  match h with
  | Callable n => call n frame st
  | NotCallable _ => (Raise (TypeError "object is not callable"), st)
  end.

(** [if subscription['ack']: self.ack(frame)] *)
Definition ack_if (b : bool) (frame : StompFrame) (st : client) : result unit * client :=
  if b then ack frame st else (Return (), st).

(** The [try ... except Exception ...] of [Stomp._onMessage]: the handler,
    the acknowledgment, and for an exception of either the failure hook, the
    acknowledgment again, and [disconnect] if that raises; what the call of
    [disconnect] raises is not caught. *)
Definition handle (sub : subscription) (frame : StompFrame)
    (st : client * list note) : result unit * (client * list note) :=
  let '(st, notes) := st in
  let attempt :=
    match call_handler (sub_handler sub) frame st with
    | (Raise e, st) => (Raise e, st)
    | (Return _, st) => ack_if (sub_ack sub) frame st
    end in
  match attempt with
  | (Return _, st) => (Return (), (st, notes))
  | (Raise e, st) =>
      let notes := notes ++ [ErrorInHandler e] in
      let recovery :=
        match _onMessageFailed e frame (sub_errorDestination sub) st with
        | (Raise e', st) => (Raise e', st)
        | (Return _, st) => ack_if (sub_ack sub) frame st
        end in
      match recovery with
      | (Return _, st) => (Return (), (st, notes))
      | (Raise e', st) =>
          let '(r, st) := Client.disconnect still_running e' st in
          (r, (st, notes))
      end
  end.

(** [Stomp._onMessage]; [started] is what [protocol.handlerStarted] comes
    to: it raises [StompConnectionError] while the transport is
    disconnecting.  The [finally] clause reports the handler finished also
    when the [try] statement raises. *)
Definition _onMessage (started : result unit) (frame : StompFrame)
    (st : client * list note) : result unit * (client * list note) :=
  match headers frame !! "message-id"%string with
  | None => (Raise (KeyError "message-id"), st)
  | Some messageId =>
      let found :=
        match session_message (the_session st.1) frame with
        | Raise _ => None
        | Return tok => _subscriptions st.1 !! tok
        end in
      match found with
      | None => (Return (), (st.1, st.2 ++ [NoHandlerFound messageId]))
      | Some sub =>
          match started with
          | Raise e => if is_connection_error e then (Return (), st) else (Raise e, st)
          | Return _ =>
              let '(r, (st', notes)) :=
                handle sub frame (st.1, st.2 ++ [HandlerStarted messageId]) in
              (r, (st', notes ++ [HandlerFinished messageId]))
          end
      end
  end.

(** [Stomp._waitConnected], the reactor running until the signal is fired;
    the result is [None] when it never is. *)
Definition _waitConnected (connectedTimeout : option Q) (st : client)
  : option (result unit) * client :=
  let '(d, w) := Deferred (reactor st) in
  let '(timeout, w) :=
    match connectedTimeout with
    | None => (None, w)
    | Some t =>
        if Qeq_bool t 0 then (None, w)
        else let '(id, w) := callLater t (DoCancel d) w in (Some id, w)
    end in
  let w := run_until (length (delayed w)) d w in
  let signal sg w :=
    {| the_session := the_session st; _failover := _failover st; disconnect_running := disconnect_running st;
       __protocol := __protocol st; _connectedSignal := sg;
       _subscriptions := _subscriptions st; log := log st;
       network := network st; attempts := attempts st; slept := slept st;
       sends := sends st; lost := lost st; disconnects := disconnects st;
       reactor := w |} in
  match deferreds w !! d with
  | Some (Some (Fired _)) =>
      (Some (Return ()),
       signal None match timeout with
                   | Some id => if active id w then unschedule id w else w
                   | None => w
                   end)
  | Some (Some (Failed e)) => (Some (Raise e), signal None w)
  | _ => (None, signal (Some d) w)
  end.

End WithSession.

(** The commands of a client, for saying something of all of them. *)
Inductive command : Type :=
| Send (destination body : string) (hdrs : gmap string string) (receipt : option string)
| SendFrame (frame : StompFrame)
| Ack (frame : StompFrame)
| Nack (frame : StompFrame)
| Begin
| Abort (transaction_id : string)
| Commit (transaction_id : string)
| Subscribe (destination : string) (h : handler) (hdrs : gmap string string)
    (receipt : option string) (ackOn : bool) (errorDestination : option string)
| Unsubscribe (tok : token) (receipt : option string).

End ClientFrames.

(** ** [client.py]: the commands as one *)

Module ClientCommands.
Import Client ClientFrames.

(** What a delayed call makes of the deferred it acts on, if that is still
    pending. *)
Definition outcome_of (a : action) : outcome :=
  match a with
  | DoCallback _ v => Fired v
  | DoErrback _ e => Failed e
  | DoCancel _ => Failed CancelledError
  end.

(** The result of a command, its value dropped. *)
Definition void {A B : Type} (r : result A * B) : result unit * B :=
  (match r.1 with
   | Return _ => Return ()
   | Raise e => Raise e
   end, r.2).

Section WithSession.
Context {session : Type}.
Local Abbreviation client := (Stomp (session := session)).
Variable session_subscribe :
  session → string → gmap string string → handler → option string → option string
  → StompFrame * token * session.
Variable session_unsubscribe :
  session → token → option string → result (StompFrame * session).
Variable session_ack : session → StompFrame → StompFrame.
Variable session_nack : session → StompFrame → StompFrame.
Variable session_begin : session → StompFrame * string * session.
Variable session_abort : session → string → StompFrame * string * session.
Variable session_commit : session → string → StompFrame * string * session.
Variable commands_send :
  string → string → gmap string string → option string → StompFrame.

(** A command of the public surface, called on the client. *)
Definition execute (c : command) (st : client) : result unit * client :=
  match c with
  | Send destination body hdrs receipt =>
      send commands_send destination body hdrs receipt st
  | SendFrame frame => sendFrame frame st
  | Ack frame => ack session_ack frame st
  | Nack frame => nack session_nack frame st
  | Begin => void (begin session_begin st)
  | Abort t => void (abort session_abort t st)
  | Commit t => void (commit session_commit t st)
  | Subscribe destination h hdrs receipt ackOn errorDestination =>
      void (subscribe session_subscribe destination h hdrs receipt ackOn
              errorDestination st)
  | Unsubscribe tok receipt => unsubscribe session_unsubscribe tok receipt st
  end.

End WithSession.

End ClientCommands.

(** ** A client, a subscription and a MESSAGE frame to try things on *)

Module Sample.
Import Client.

Definition token : Client.token := ("id"%string, "0"%string).

Definition idle : Stomp (session := unit) :=
  {| the_session := (); _failover := Exhausted; __protocol := None;
     _connectedSignal := None; _subscriptions := ∅; log := [];
     network := λ _ _, Raise (TransportError "Connection refused");
     attempts := 0; slept := []; sends := []; lost := []; disconnects := [];
     disconnect_running := false; reactor := empty_world |}.

Definition connected : Stomp (session := unit) :=
  {| the_session := (); _failover := Exhausted; __protocol := Some 1;
     _connectedSignal := None;
     _subscriptions :=
       {[token := Subscription "/queue/a" (Callable 0) true (Some "/queue/errors")]};
     log := [];
     network := λ _ _, Raise (TransportError "Connection refused");
     attempts := 0; slept := []; sends := []; lost := []; disconnects := [];
     disconnect_running := false; reactor := empty_world |}.

Definition message : StompFrame :=
  {| command := "MESSAGE"; headers := {["message-id" := "m1"]}; body := "hello" |}.

Definition session_message (_ : unit) (_ : StompFrame) : result Client.token :=
  Return token.

Definition session_ack (_ : unit) (f : StompFrame) : StompFrame :=
  {| command := "ACK"; headers := headers f; body := "" |}.

Definition commands_send (destination body : string) (hdrs : gmap string string)
    (_ : option string) : StompFrame :=
  {| command := "SEND"; headers := <["destination" := destination]> hdrs;
     body := body |}.

Definition failing (_ : nat) (_ : StompFrame) (st : Stomp (session := unit))
  : result unit * Stomp (session := unit) :=
  (Raise (RuntimeError "boom"), st).

End Sample.

(* ------------------------------------------------------------------ *)
(** * Properties *)

(** ** The reactor *)

Section ReactorFacts.
Import Twisted InFlight.

Lemma called_set_outcome d d' o w :
  called d (set_outcome d' o w) = if decide (d' = d) then true else called d w.
Proof.
  unfold called, set_outcome; simpl.
  rewrite lookup_insert. by destruct (decide (d' = d)).
Qed.

End ReactorFacts.

Section ReactorRun.
Import Twisted InFlight.

Lemma earliest_elem l c : earliest l = Some c → c ∈ l.
Proof.
  revert c; induction l as [|c0 l IH]; intros c; simpl; [done|].
  destruct (earliest l) as [c'|] eqn:E.
  - destruct (Qle_bool _ _); intros [= <-]; [left | right; by apply IH].
  - intros [= <-]; left.
Qed.

Lemma earliest_nonempty l c : c ∈ l → is_Some (earliest l).
Proof.
  destruct l as [|c0 l]; [by intros ?%elem_of_nil|]; intros _; simpl.
  destruct (earliest l); [destruct (Qle_bool _ _)|]; eauto.
Qed.

Lemma run_until_called n d w : called d w = true → run_until n d w = w.
Proof. destruct n; simpl; [done|]. by intros ->. Qed.

Lemma unschedule_length id w c :
  c ∈ delayed w → call_id c = id →
  length (delayed (unschedule id w)) < length (delayed w).
Proof.
  intros Hin Hid; simpl.
  induction (delayed w) as [|c0 l IH]; [by apply elem_of_nil in Hin|].
  rewrite filter_cons. apply elem_of_cons in Hin as [<-|Hin].
  - rewrite decide_False by (intros Hne; by apply Hne).
    simpl. pose proof (length_filter (λ c, call_id c ≠ id) l). lia.
  - specialize (IH Hin). destruct (decide _); simpl; lia.
Qed.

Lemma deferreds_exec_other a w d :
  target a ≠ d → deferreds (exec a w) !! d = deferreds w !! d.
Proof.
  intros Hne. destruct a as [d' v|d' e|d']; simpl in *;
    unfold callback, errback, cancel; destruct (called d' w); simpl; try done;
    by rewrite lookup_insert_ne.
Qed.

Lemma delayed_exec a w : delayed (exec a w) = delayed w.
Proof.
  destruct a; simpl; unfold callback, errback, cancel;
    by destruct (called _ w).
Qed.

Lemma called_lookup d w w' :
  deferreds w' !! d = deferreds w !! d → called d w' = called d w.
Proof. unfold called. by intros ->. Qed.

(** The timeout of a pending deferred eventually fires, whatever else the
    reactor has to run first, provided nothing else completes the deferred. *)
Lemma run_until_timeout n d id due fail w :
  called d w = false →
  DelayedCall id due (DoErrback d fail) ∈ delayed w →
  Forall (λ c, c = DelayedCall id due (DoErrback d fail)
               ∨ (target (call_action c) ≠ d ∧ call_id c ≠ id)) (delayed w) →
  length (delayed w) ≤ n →
  deferreds (run_until n d w) !! d = Some (Some (Failed fail)).
Proof.
  revert w; induction n as [|n IH]; intros w Hpend Hin Hall Hlen.
  { destruct (delayed w); [by apply elem_of_nil in Hin | simpl in Hlen; lia]. }
  simpl. rewrite Hpend.
  destruct (earliest_nonempty _ _ Hin) as [c Hc]. rewrite Hc.
  pose proof (earliest_elem _ _ Hc) as Hcin.
  rewrite Forall_forall in Hall.
  destruct (Hall c Hcin) as [->|[Htgt Hid]].
  - assert (Hd : deferreds (fire (DelayedCall id due (DoErrback d fail)) w) !! d
                 = Some (Some (Failed fail))).
    { unfold fire; simpl. unfold errback, called at 1; simpl.
      unfold called in Hpend. destruct (deferreds w !! d) as [[?|]|] eqn:E;
        try done; simpl; by rewrite lookup_insert_eq. }
    rewrite run_until_called; [done|]. unfold called. by rewrite Hd.
  - apply IH.
    + rewrite <- Hpend. apply called_lookup. unfold fire.
      by rewrite deferreds_exec_other.
    + unfold fire. rewrite delayed_exec. simpl.
      apply list_elem_of_filter. split; [simpl; congruence | done].
    + unfold fire. rewrite delayed_exec. simpl.
      apply Forall_forall. intros c' [_ Hc']%list_elem_of_filter. by apply Hall.
    + unfold fire. rewrite delayed_exec.
      pose proof (unschedule_length (call_id c) w c Hcin eq_refl). simpl in *. lia.
Qed.

End ReactorRun.

(** ** The correlation registry *)

Section RegistryFacts.
Import Twisted InFlight.
Context {K : Type} `{Countable K}.

Lemma setitem_fresh (op : InFlightOperations K) key d :
  waiting op !! key = None →
  ∃ op', setitem key d op = Return op' ∧ waiting op' !! key = Some d.
Proof.
  intros Hk. unfold setitem. rewrite Hk. eexists; split; [done|].
  simpl. apply lookup_insert_eq.
Qed.

Lemma setitem_live (op : InFlightOperations K) key d d' :
  waiting op !! key = Some d →
  setitem key d' op = Raise (KeyError (info op +:+ " already in progress")).
Proof. intros Hk. unfold setitem. by rewrite Hk. Qed.

Lemma pop_live (op : InFlightOperations K) key d :
  waiting op !! key = Some d →
  ∃ op', pop key op = Return (d, op') ∧ waiting op' !! key = None
         ∧ info op' = info op.
Proof.
  intros Hk. unfold pop. rewrite Hk. eexists; split; [done|].
  simpl. split; [apply lookup_delete_eq | done].
Qed.

Lemma leave_live {A} (op : InFlightOperations K) key d (body : result A) w :
  waiting op !! key = Some d →
  ∃ op' w', leave key d body op w = (body, op', w')
            ∧ waiting op' !! key = None ∧ called d w' = true.
Proof.
  intros Hk. unfold leave, pop. rewrite Hk.
  eexists _, _; split; [done|]. split; [apply lookup_delete_eq|].
  destruct (called d w) eqn:Hc; [done|].
  destruct body; simpl; unfold callback, errback; rewrite Hc; simpl;
    rewrite called_set_outcome; by rewrite decide_True.
Qed.

(** C1.  While a key has a live entry, registering it again raises and leaves
    the registry as it is (no new registry is produced, the first handle stays
    under the key); once the entry has been removed, by [pop] or by the end of
    the scope that completes its handle, the key is absent and can be
    registered afresh. *)
Theorem C1_exclusive_registration (op : InFlightOperations K) key d w :
  waiting op !! key = Some d →
  (∀ d', setitem key d' op = Raise (KeyError (info op +:+ " already in progress")))
  ∧ (∀ w0, ∃ w1, enter key op w0 = (Raise (KeyError (info op +:+ " already in progress")), w1))
  ∧ (∃ op', pop key op = Return (d, op')
       ∧ waiting op' !! key = None
       ∧ ∀ d', ∃ op'', setitem key d' op' = Return op'' ∧ waiting op'' !! key = Some d')
  ∧ (∃ op' w', leave key d (Return VNone) op w = (Return VNone, op', w')
       ∧ called d w' = true
       ∧ waiting op' !! key = None
       ∧ ∀ d', ∃ op'', setitem key d' op' = Return op'' ∧ waiting op'' !! key = Some d').
Proof.
  intros Hk. repeat split.
  - intros d'. by eapply setitem_live.
  - intros w0. unfold enter. simpl. erewrite setitem_live by done. eauto.
  - destruct (pop_live op key d Hk) as (op' & Hpop & Hnone & _).
    exists op'. repeat split; [done..|]. intros d'. by apply setitem_fresh.
  - destruct (leave_live op key d (Return VNone) w Hk) as (op' & w' & Hl & Hnone & Hc).
    exists op', w'. repeat split; [done..|]. intros d'. by apply setitem_fresh.
Qed.

(** What [wait] does to a pending deferred whose timeout is the only thing
    that will complete it. *)
Lemma wait_timeout d t fail w :
  called d w = false →
  Forall (λ c, target (call_action c) ≠ d ∧ call_id c < fresh w) (delayed w) →
  ∃ w', wait d (Some t) fail w = (Some (Raise fail), w')
        ∧ deferreds w' !! d = Some (Some (Failed fail)).
Proof.
  intros Hpend Hall. unfold wait, callLater.
  set (w1 := {| now := now w; fresh := S (fresh w); deferreds := deferreds w;
                delayed := delayed w ++ [DelayedCall (fresh w) (now w + t)%Q (DoErrback d fail)] |}).
  assert (Hrun : deferreds (run_until (length (delayed w1)) d w1) !! d
                 = Some (Some (Failed fail))).
  { apply (run_until_timeout _ d (fresh w) (now w + t)%Q fail); [done| | |done].
    - simpl. apply elem_of_app. right. left.
    - simpl. apply Forall_app. split.
      + eapply Forall_impl; [exact Hall|]. simpl. intros c [? ?]. right. split; [done|lia].
      + apply Forall_singleton. by left. }
  fold w1. set (w2 := run_until (length (delayed w1)) d w1) in *.
  destruct (active (fresh w) w2).
  - exists (unschedule (fresh w) w2). simpl. by rewrite Hrun.
  - exists w2. by rewrite Hrun.
Qed.

(** C4, as the code has it.  Waiting with timeout 0 on a pending handle fails
    with exactly the error supplied, and the handle is failed with it; the
    wait does not touch the registry, where the key is removed when the
    enclosing scope is left, the exception propagating. *)
Theorem C4_timeout_fails_entry_removed_on_exit (op : InFlightOperations K) key d fail w :
  waiting op !! key = Some d →
  called d w = false →
  Forall (λ c, target (call_action c) ≠ d ∧ call_id c < fresh w) (delayed w) →
  ∃ w', wait d (Some 0%Q) fail w = (Some (Raise fail), w')
      ∧ deferreds w' !! d = Some (Some (Failed fail))
      ∧ ∃ op', leave key d (Raise fail : result value) op w' = (Raise fail, op', w')
             ∧ waiting op' !! key = None.
Proof.
  intros Hk Hpend Hall.
  destruct (wait_timeout d 0%Q fail w Hpend Hall) as (w' & Hw & Hd).
  exists w'. repeat split; [done..|].
  unfold leave, pop. rewrite Hk.
  unfold called. rewrite Hd. eexists; split; [done|]. apply lookup_delete_eq.
Qed.

End RegistryFacts.

(** The unit test [test_dict_interface], lines 23 to 30, on the model. *)
Lemma C1_exclusive_registration_witness :
  let op : InFlight.InFlightOperations nat := {| InFlight.info := "test"; InFlight.waiting := {[1 := 0]} |} in
  InFlight.waiting op !! 1 = Some 0
  ∧ InFlight.setitem 1 7 op = Raise (KeyError "test already in progress").
Proof.
  split; [reflexivity|].
  exact (proj1 (C1_exclusive_registration
                  {| InFlight.info := "test"; InFlight.waiting := {[1 := 0]} |} 1 0 empty_world eq_refl) 7).
Defined.

(** The unit test [test_timeout] on the model: inside the scope, after the
    wait has timed out, the key is still there; it is gone after the scope. *)
Lemma C4_timeout_fails_entry_removed_on_exit_witness :
  let op : InFlight.InFlightOperations (option nat) :=
    {| InFlight.info := "test"; InFlight.waiting := {[None := 0]} |} in
  let w := snd (Deferred empty_world) in
  ∃ w', InFlight.wait 0 (Some 0%Q) (RuntimeError "hi") w = (Some (Raise (RuntimeError "hi")), w')
      ∧ deferreds w' !! 0 = Some (Some (Failed (RuntimeError "hi")))
      ∧ ∃ op', InFlight.leave None 0 (Raise (RuntimeError "hi") : result value) op w'
               = (Raise (RuntimeError "hi"), op', w')
             ∧ InFlight.waiting op' !! (None : option nat) = None.
Proof.
  apply (C4_timeout_fails_entry_removed_on_exit
           {| InFlight.info := "test"; InFlight.waiting := {[None := 0]} |}
           None 0 (RuntimeError "hi") (snd (Deferred empty_world)));
    [reflexivity | reflexivity | constructor].
Defined.

(** C4 as stated fails: [test_timeout], line 115.  The handle of the scope is
    waited on with timeout 0 and fails with the error supplied, and the
    registry still lists the key. *)
Lemma C4_counterexample :
  let op : InFlight.InFlightOperations (option nat) :=
    {| InFlight.info := "test"; InFlight.waiting := ∅ |} in
  ∃ d op1 w1 w2,
    InFlight.enter None op empty_world = (Return (d, op1), w1)
    ∧ InFlight.wait d (Some 0%Q) (RuntimeError "hi") w1
      = (Some (Raise (RuntimeError "hi")), w2)
    ∧ InFlight.keys op1 = [None]
    ∧ InFlight.waiting op1 !! None = Some d.
Proof.
  eexists _, _, _, _. split; [reflexivity|].
  split; [vm_compute; reflexivity|]. split; reflexivity.
Qed.

(** *** The unit tests of [tests/async_util.py] on the model *)

Section RegistryTests.
Import InFlight.

(** [test_dict_interface] *)
Example test_dict_interface :
  let op : InFlightOperations nat := {| info := "test"; waiting := ∅ |} in
  keys op = []
  ∧ getitem 1 op = Raise (KeyError "test unknown")
  ∧ pop 1 op = Raise (KeyError "test unknown")
  ∧ get 1 None op = None
  ∧ get 1 (Some 2) op = Some 2
  ∧ ∃ op1, setitem 1 5 op = Return op1
      ∧ keys op1 = [1]
      ∧ getitem 1 op1 = Return 5
      ∧ get 1 None op1 = Some 5
      ∧ setitem 1 6 op1 = Raise (KeyError "test already in progress")
      ∧ ∃ op2, pop 1 op1 = Return (5, op2)
          ∧ pop 1 op2 = Raise (KeyError "test unknown")
          ∧ ∃ op3, setitem 1 5 op2 = Return op3 ∧ keys op3 = [1].
Proof.
  repeat split. eexists. repeat split. eexists. repeat split.
  eexists. repeat split.
Qed.

(** [test_context_single], lines 39 to 44: the key is there inside the block
    and gone after it, the handle fired. *)
Example test_context_single_plain :
  let op : InFlightOperations nat := {| info := "test"; waiting := ∅ |} in
  ∃ d op1 w1, enter 1 op empty_world = (Return (d, op1), w1)
    ∧ keys op1 = [1]
    ∧ getitem 1 op1 = Return d
    ∧ ∃ op2 w2, leave 1 d (Return VNone) op1 w1 = (Return VNone, op2, w2)
        ∧ keys op2 = []
        ∧ deferreds w2 !! d = Some (Some (Fired VNone)).
Proof.
  eexists _, _, _. repeat split. eexists _, _. repeat split.
Qed.

(** [test_context_single], lines 52 to 60: the handle is cancelled from the
    reactor while it is waited on without timeout. *)
Example test_context_single_cancel :
  let op : InFlightOperations (option nat) := {| info := "test"; waiting := ∅ |} in
  ∃ d op1 w1, enter None op empty_world = (Return (d, op1), w1)
    ∧ ∃ w2, wait d None CancelledError (callLater 0%Q (DoCancel d) w1).2
            = (Some (Raise CancelledError), w2)
        ∧ ∃ op2 w3, leave None d (Raise CancelledError : result value) op1 w2
                    = (Raise CancelledError, op2, w3)
            ∧ keys op2 = [].
Proof.
  eexists _, _, _. split; [reflexivity|].
  eexists. split; [vm_compute; reflexivity|].
  eexists _, _. split; reflexivity.
Qed.

(** [test_context_single], lines 72 to 76: the handle is fired with 4711
    from the reactor. *)
Example test_context_single_callback :
  let op : InFlightOperations (option nat) := {| info := "test"; waiting := ∅ |} in
  ∃ d op1 w1, enter None op empty_world = (Return (d, op1), w1)
    ∧ ∃ w2, wait d None CancelledError (callLater 0%Q (DoCallback d (VInt 4711)) w1).2
            = (Some (Return (VInt 4711)), w2)
        ∧ ∃ op2 w3, leave None d (Return (VInt 4711)) op1 w2
                    = (Return (VInt 4711), op2, w3)
            ∧ keys op2 = [].
Proof.
  eexists _, _, _. split; [reflexivity|].
  eexists. split; [vm_compute; reflexivity|].
  eexists _, _. split; reflexivity.
Qed.

(** [test_context_single], lines 78 to 89: an exception in the block fails
    the handle and removes the key. *)
Example test_context_single_exception :
  let op : InFlightOperations (option nat) := {| info := "test"; waiting := ∅ |} in
  ∃ d op1 w1, enter None op empty_world = (Return (d, op1), w1)
    ∧ ∃ op2 w2, leave None d (Raise (RuntimeError "hi") : result value) op1 w1
                = (Raise (RuntimeError "hi"), op2, w2)
        ∧ keys op2 = []
        ∧ deferreds w2 !! d = Some (Some (Failed (RuntimeError "hi"))).
Proof.
  eexists _, _, _. split; [reflexivity|]. eexists _, _. repeat split.
Qed.

End RegistryTests.

(** ** Heart-beats *)

Section HeartBeatFacts.
Import HeartBeat.

Lemma max0_nonneg x : (0 <= max0 x)%Q.
Proof. unfold max0. destruct (Qlt_le_dec x 0); [apply Qle_refl | done]. Qed.

Lemma max0_le x : (x <= max0 x)%Q.
Proof.
  unfold max0. destruct (Qlt_le_dec x 0); [by apply Qlt_le_weak | apply Qle_refl].
Qed.

(** Heart-beat remaining time is never negative while the direction is
    enabled, and is [-1] exactly when it is disabled. *)
Lemma beatRemaining_enabled wh st :
  (0 <= fst (_beatRemaining wh st))%Q →
  match wh with
  | client => clientHeartBeat (session st)
  | server => serverHeartBeat (session st)
  end ≠ 0%Z.
Proof.
  unfold _beatRemaining. intros Hr Hz.
  destruct wh; simpl in *; rewrite Hz in Hr; simpl in Hr; by apply Hr.
Qed.

Lemma beatRemaining_pop_cancel wh wh' st :
  _beatRemaining wh (pop_cancel wh' st)
  = (fst (_beatRemaining wh st), pop_cancel wh' (snd (_beatRemaining wh st))).
Proof.
  unfold _beatRemaining, pop_cancel.
  destruct (heartBeats st wh') eqn:Hb; simpl;
    destruct (decide _); simpl; rewrite ?Hb; done.
Qed.

Lemma beatRemaining_snd wh st :
  snd (_beatRemaining wh st) = st ∨ snd (_beatRemaining wh st) = snd (time_time st).
Proof. unfold _beatRemaining. destruct (decide _); simpl; auto. Qed.

Lemma rearm_below_period (thr e : Q) (h : Z) :
  (0 <= e)%Q → (0 < h)%Z → (thr < 1)%Q →
  (max0 (thr * inject_Z h / (1000 # 1) - e) < inject_Z h / (1000 # 1))%Q.
Proof.
  intros He Hh Hthr.
  assert (HH : (inject_Z 0 < inject_Z h)%Q) by (by rewrite Zlt_Qlt in Hh).
  change (inject_Z 0) with 0%Q in HH.
  assert (Hm : (thr * inject_Z h < inject_Z h)%Q).
  { apply Qlt_le_trans with (1 * inject_Z h)%Q;
      [by apply Qmult_lt_compat_r | rewrite Qmult_1_l; apply Qle_refl]. }
  unfold Qdiv. change (/ (1000 # 1))%Q with (1 # 1000)%Q.
  revert HH Hm. generalize (thr * inject_Z h)%Q. generalize (inject_Z h).
  intros H p HH Hp.
  unfold max0. destruct (Qlt_le_dec _ 0) as [_|_]; lra.
Qed.

Lemma Forall_filter_timers (P : timer → Prop) id ts :
  Forall P ts → Forall P (filter (λ t, timer_id t ≠ id) ts).
Proof.
  rewrite !Forall_forall. intros Hall t [_ Ht]%list_elem_of_filter. by apply Hall.
Qed.

(** A check of the outbound direction never touches the inbound one and never
    disconnects. *)
Lemma beat_client_no_inbound conn st :
  no_inbound_timer st →
  no_inbound_timer (_beat conn client st)
  ∧ disconnects (_beat conn client st) = disconnects st.
Proof.
  intros [Hs Hall].
  destruct st as [clk r thr hbs [chb shb ls lr] w ds ts nt]; simpl in *.
  pose proof (λ id, Forall_filter_timers _ id ts Hall) as Hf.
  unfold no_inbound_timer, _beat, pop_cancel, _beatRemaining, sendFrame, onSend, sent,
    callLater, time_time, set_session; simpl.
  destruct (hbs client); destruct conn; simpl;
    destruct (decide (chb = 0%Z)); simpl;
    repeat (match goal with
            | |- context [Qlt_le_dec ?a ?b] => destruct (Qlt_le_dec a b); simpl
            | |- context [Qeq_bool ?a ?b] => destruct (Qeq_bool a b); simpl
            | |- context [decide (chb = 0%Z)] => destruct (decide (chb = 0%Z)); simpl
            end);
    repeat split; try done; try (apply Forall_app; split; [done| by apply Forall_singleton]).
Qed.

Lemma fire_no_inbound id st :
  no_inbound_timer st →
  no_inbound_timer (fire id st) ∧ disconnects (fire id st) = disconnects st.
Proof.
  intros [Hs Hall]. unfold fire.
  destruct (list_find _ _) as [[i t]|] eqn:Hfind; [|done].
  apply list_find_Some in Hfind as (Hi & _ & _).
  apply list_elem_of_lookup_2 in Hi.
  rewrite Forall_forall in Hall. rewrite (Hall t Hi).
  match goal with |- context [_beat true client ?s] =>
    destruct (beat_client_no_inbound true s) as [Hinv Hd] end.
  { split; simpl; [done|]. apply Forall_filter_timers. by apply Forall_forall. }
  by split.
Qed.

Lemma fires_no_inbound ids st :
  no_inbound_timer st →
  no_inbound_timer (fires ids st) ∧ disconnects (fires ids st) = disconnects st.
Proof.
  revert st; induction ids as [|id ids IH]; intros st Hinv; [done|].
  destruct (fire_no_inbound id st Hinv) as [Hinv' Hd].
  destruct (IH _ Hinv') as [? Hd']. simpl. split; [done|]. by rewrite Hd', Hd.
Qed.

(** A delayed call that runs is [_beat] on the state without the call. *)
Lemma fire_pending id delay wh st :
  NoDup (timer_id <$> timers st) →
  Timer id delay wh ∈ timers st →
  fire id st
  = _beat true wh
      {| clock := clock st; reads := reads st; thresholds := thresholds st;
         heartBeats := heartBeats st; session := session st; wire := wire st;
         disconnects := disconnects st;
         timers := filter (λ t', timer_id t' ≠ id) (timers st);
         next_timer := next_timer st |}.
Proof.
  intros Hnd Hin. unfold fire.
  destruct (list_find _ _) as [[i t]|] eqn:Hfind.
  - apply list_find_Some in Hfind as (Hi & Hid & _).
    apply list_elem_of_lookup in Hin as [j Hj].
    assert (i = j) as ->.
    { eapply NoDup_lookup; [exact Hnd|..]; rewrite list_lookup_fmap.
      - by rewrite Hi.
      - rewrite Hj. simpl. by rewrite Hid. }
    rewrite Hi in Hj. by injection Hj as ->.
  - apply list_find_None in Hfind. rewrite Forall_forall in Hfind.
    by destruct (Hfind _ Hin).
Qed.

(** C2, as the code has it.  When the outbound check finds no time
    remaining, exactly one heart-beat goes to the transport, the send is
    stamped as the last outbound activity, nothing is disconnected, and one
    outbound check is scheduled after the remaining time computed anew:
    threshold times period less the time since the send.  With a tolerance
    threshold below one (0.8 by default) that is less than the period. *)
Theorem C2_outbound_beat_rearms_after_threshold st :
  (fst (_beatRemaining client st) == 0)%Q →
  let st' := _beat true client st in
  let period := (inject_Z (clientHeartBeat (session st)) / (1000 # 1))%Q in
  let t_sent := clock st (S (reads st)) in
  let t_next := clock st (S (S (reads st))) in
  let delay :=
    max0 (thresholds st client * inject_Z (clientHeartBeat (session st)) / (1000 # 1)
          - (t_next - t_sent))%Q in
  clientHeartBeat (session st) ≠ 0%Z
  ∧ wire st' = wire st ++ [StompHeartBeat]
  ∧ lastSent (session st') = t_sent
  ∧ disconnects st' = disconnects st
  ∧ heartBeats st' client = Some (next_timer st)
  ∧ timers st' = timers (pop_cancel client st) ++ [Timer (next_timer st) delay client]
  ∧ ((t_sent <= t_next)%Q → (0 < clientHeartBeat (session st))%Z →
     (thresholds st client < 1)%Q → (delay < period)%Q).
Proof.
  intros Hr.
  assert (Hhb : clientHeartBeat (session st) ≠ 0%Z).
  { apply (beatRemaining_enabled client). rewrite Hr. apply Qle_refl. }
  simpl. split; [done|].
  assert (Hst : wire (_beat true client st) = wire st ++ [StompHeartBeat]
    ∧ lastSent (session (_beat true client st)) = clock st (S (reads st))
    ∧ disconnects (_beat true client st) = disconnects st
    ∧ heartBeats (_beat true client st) client = Some (next_timer st)
    ∧ timers (_beat true client st)
      = timers (pop_cancel client st)
        ++ [Timer (next_timer st)
              (max0 (thresholds st client * inject_Z (clientHeartBeat (session st))
                     / (1000 # 1)
                     - (clock st (S (S (reads st))) - clock st (S (reads st)))))%Q
              client]).
  { unfold _beat. simpl. rewrite beatRemaining_pop_cancel.
    destruct (Qlt_le_dec _ 0) as [Hlt|_].
    { rewrite Hr in Hlt. by apply Qlt_irrefl in Hlt. }
    apply Qeq_bool_iff in Hr as Hb. rewrite Hb. clear Hr Hb.
    destruct st as [clk r thr hbs [chb shb ls lr] w ds ts nt]; simpl in *.
    unfold _beatRemaining, pop_cancel; simpl.
    destruct (decide (chb = 0%Z)) as [?|_]; [done|]. simpl.
    destruct (hbs client); simpl; destruct (decide (chb = 0%Z)) as [?|_]; try done;
      simpl; rewrite ?decide_True by done; repeat split. }
  destruct Hst as (Hw & Hl & Hd & Hh & Ht).
  split; [exact Hw|]. split; [exact Hl|]. split; [exact Hd|].
  split; [exact Hh|]. split; [exact Ht|].
  intros Hle Hpos Hthr. apply rearm_below_period; [lra|done..].
Qed.

(** The spec's example: period 1000 ms, threshold 0.8, last send at 0, the
    check running at 1 s. *)
Lemma C2_outbound_beat_rearms_after_threshold_witness :
  let st := {| clock := λ _, (1 # 1)%Q; reads := 0; thresholds := DEFAULT_THRESHOLDS;
               heartBeats := λ _, None;
               session := {| clientHeartBeat := 1000; serverHeartBeat := 0;
                             lastSent := 0%Q; lastReceived := 0%Q |};
               wire := []; disconnects := []; timers := []; next_timer := 0 |} in
  (fst (_beatRemaining client st) == 0)%Q
  ∧ wire (_beat true client st) = wire st ++ [StompHeartBeat].
Proof.
  split; [reflexivity|].
  refine (proj1 (proj2 (C2_outbound_beat_rearms_after_threshold _ _))).
  reflexivity.
Defined.

(** C2 as stated fails on the spec's own example: the heart-beat is sent and
    the next outbound check comes after 0.8 s, not after the period of 1 s. *)
Lemma C2_counterexample :
  let st := {| clock := λ _, (1 # 1)%Q; reads := 0; thresholds := DEFAULT_THRESHOLDS;
               heartBeats := λ _, None;
               session := {| clientHeartBeat := 1000; serverHeartBeat := 0;
                             lastSent := 0%Q; lastReceived := 0%Q |};
               wire := []; disconnects := []; timers := []; next_timer := 0 |} in
  (fst (_beatRemaining client st) == 0)%Q
  ∧ wire (_beat true client st) = [StompHeartBeat]
  ∧ ∃ delay, timers (_beat true client st) = [Timer 0 delay client]
             ∧ (delay == 8 # 10)%Q
             ∧ ¬ (delay == inject_Z (clientHeartBeat (session st)) / (1000 # 1))%Q.
Proof.
  split; [reflexivity|]. split; [reflexivity|].
  eexists. split; [reflexivity|]. split; [reflexivity|]. by intros ?.
Qed.

(** C8.  When the inbound check finds no time remaining, the connection is
    disconnected with the heart-beat timeout error, once; nothing is sent; no
    inbound check is scheduled, then or by whatever delayed calls run
    afterwards, none of which disconnects again. *)
Theorem C8_inbound_timeout_disconnects_once st :
  (fst (_beatRemaining server st) == 0)%Q →
  inbound_recorded st →
  let st' := _beat true server st in
  serverHeartBeat (session st) ≠ 0%Z
  ∧ disconnects st' = disconnects st ++ [StompConnectionError "Server heart-beat timeout"]
  ∧ wire st' = wire st
  ∧ no_inbound_timer st'
  ∧ ∀ ids, no_inbound_timer (fires ids st')
           ∧ disconnects (fires ids st') = disconnects st'.
Proof.
  intros Hr Hrec.
  assert (Hhb : serverHeartBeat (session st) ≠ 0%Z).
  { apply (beatRemaining_enabled server). rewrite Hr. apply Qle_refl. }
  simpl. split; [done|].
  assert (Hst : disconnects (_beat true server st)
                = disconnects st ++ [StompConnectionError "Server heart-beat timeout"]
                ∧ wire (_beat true server st) = wire st
                ∧ no_inbound_timer (_beat true server st)).
  { unfold _beat. simpl. rewrite beatRemaining_pop_cancel.
    destruct (Qlt_le_dec _ 0) as [Hlt|_].
    { rewrite Hr in Hlt. by apply Qlt_irrefl in Hlt. }
    apply Qeq_bool_iff in Hr as Hb. rewrite Hb. clear Hr Hb.
    unfold inbound_recorded in Hrec. rewrite Forall_forall in Hrec.
    destruct st as [clk r thr hbs [chb shb ls lr] w ds ts nt]; simpl in *.
    unfold _beatRemaining, pop_cancel, no_inbound_timer; simpl.
    destruct (decide (shb = 0%Z)) as [?|_]; [done|]. simpl.
    destruct (hbs server) as [id|] eqn:Hid; simpl; repeat split; try done.
    - apply Forall_forall. intros t [Hne Ht]%list_elem_of_filter.
      destruct (timer_which t) eqn:Hw; [done|].
      specialize (Hrec t Ht Hw). congruence.
    - apply Forall_forall. intros t Ht.
      destruct (timer_which t) eqn:Hw; [done|].
      specialize (Hrec t Ht Hw). congruence. }
  destruct Hst as (Hd & Hw & Hinv).
  split; [exact Hd|]. split; [exact Hw|]. split; [exact Hinv|].
  intros ids. by apply fires_no_inbound.
Qed.

(** The spec's example: period 1000 ms, threshold 2.0, last frame received
    at 0, the recorded check running at 2 s. *)
Lemma C8_inbound_timeout_disconnects_once_witness :
  let st := {| clock := λ _, (2 # 1)%Q; reads := 0; thresholds := DEFAULT_THRESHOLDS;
               heartBeats := λ wh, match wh with server => Some 0 | client => None end;
               session := {| clientHeartBeat := 0; serverHeartBeat := 1000;
                             lastSent := 0%Q; lastReceived := 0%Q |};
               wire := []; disconnects := []; timers := []; next_timer := 1 |} in
  (fst (_beatRemaining server st) == 0)%Q
  ∧ inbound_recorded st
  ∧ disconnects (_beat true server st)
    = disconnects st ++ [StompConnectionError "Server heart-beat timeout"].
Proof.
  split; [reflexivity|]. split; [constructor|].
  refine (proj1 (proj2 (C8_inbound_timeout_disconnects_once _ _ _)));
    [reflexivity | constructor].
Defined.

End HeartBeatFacts.

(** ** Graceful disconnect *)

Section DisconnectFacts.
Import Disconnect.

Lemma onDisconnect_reason reason st :
  __disconnectReason (onDisconnect reason st)
  = match reason, __disconnectReason st with
    | None, _ => None
    | Some r, None => Some r
    | Some _, Some r0 => Some r0
    end.
Proof.
  unfold onDisconnect.
  destruct reason as [r|], st as [dis [r0|] lg rm cl sg]; simpl; by destruct dis.
Qed.

Lemma onDisconnect_failures reason st :
  failures_logged (log (onDisconnect reason st))
  = failures_logged (log st) ++ from_option (λ r, [r]) [] reason.
Proof.
  unfold onDisconnect, failures_logged.
  destruct reason as [r|], st as [dis r0 lg rm cl sg]; simpl; destruct dis; simpl;
    rewrite ?omap_app; simpl; by rewrite ?app_nil_r.
Qed.

Lemma onDisconnect_disconnecting reason st :
  _disconnecting (onDisconnect reason st) = true.
Proof.
  unfold onDisconnect.
  destruct reason as [r|], st as [dis r0 lg rm cl sg]; simpl; by destruct dis.
Qed.

Lemma onDisconnect_signal reason st :
  disconnected (onDisconnect reason st) = disconnected st.
Proof.
  unfold onDisconnect.
  destruct reason as [r|], st as [dis r0 lg rm cl sg]; simpl; by destruct dis.
Qed.

Lemma onDisconnects_reason reasons st acc :
  __disconnectReason st = head acc →
  __disconnectReason (onDisconnects reasons st) = head (since_null reasons acc).
Proof.
  revert st acc; induction reasons as [|r rs IH]; intros st acc Hst; [done|].
  simpl. destruct r as [r|].
  - apply IH. rewrite onDisconnect_reason, Hst. by destruct acc.
  - apply IH. by rewrite onDisconnect_reason.
Qed.

Lemma onDisconnects_failures reasons st :
  failures_logged (log (onDisconnects reasons st))
  = failures_logged (log st) ++ omap id reasons.
Proof.
  revert st; induction reasons as [|r rs IH]; intros st; simpl.
  - by rewrite app_nil_r.
  - change (onDisconnects (r :: rs) st) with (onDisconnects rs (onDisconnect r st)).
    rewrite IH, onDisconnect_failures, <- app_assoc. by destruct r.
Qed.

Lemma onDisconnects_signal reasons st :
  disconnected (onDisconnects reasons st) = disconnected st.
Proof.
  revert st; induction reasons as [|r rs IH]; intros st; [done|].
  change (onDisconnects (r :: rs) st) with (onDisconnects rs (onDisconnect r st)).
  by rewrite IH, onDisconnect_signal.
Qed.

Lemma onDisconnects_disconnecting reasons st :
  reasons ≠ [] → _disconnecting (onDisconnects reasons st) = true.
Proof.
  revert st; induction reasons as [|r rs IH]; intros st Hne; [done|].
  destruct rs as [|r' rs]; [apply onDisconnect_disconnecting|].
  simpl in *. by apply IH.
Qed.

Lemma since_null_failures rs acc :
  Forall is_Some rs → head (since_null rs acc) = head (acc ++ omap id rs).
Proof.
  revert acc; induction rs as [|r rs IH]; intros acc Hall; simpl.
  - by rewrite app_nil_r.
  - apply Forall_cons in Hall as [[e ->] Hall]. simpl.
    rewrite IH by done. by rewrite <- app_assoc.
Qed.

(** C6, as the code has it.  Of the reasons handed to [onDisconnect] the one
    on record is the first failure since the last null reason: a failure
    never replaces a failure on record, a null reason clears the record.
    Every failure handed over is logged, in order.  When the connection is
    then lost, the disconnected signal fires with the failure on record, or
    with success if there is none, and the session is flushed only in the
    latter case; a loss without any [onDisconnect] before it is reported as
    an unexpected connection loss.  Where no null reason follows a failure,
    the first failure is the one on record. *)
Theorem C6_first_failure_since_null_wins (reasons : list (option exn)) (msg : string) :
  let st := onDisconnects reasons onAdd in
  __disconnectReason st = head (since_null reasons [])
  ∧ failures_logged (log st) = omap id reasons
  ∧ (reasons ≠ [] →
     ∃ st', onConnectionLost msg st = (Return (), st')
            ∧ disconnected st'
              = Some (match head (since_null reasons []) with
                      | Some r => Raise r
                      | None => Return ()
                      end)
            ∧ closed st' = Some (bool_decide (head (since_null reasons []) = None))
            ∧ removed st' = true)
  ∧ (reasons = [] →
     ∃ st', onConnectionLost msg st = (Return (), st')
            ∧ disconnected st'
              = Some (Raise (StompConnectionError
                               ("Unexpected connection loss [" +:+ msg +:+ "]")))
            ∧ closed st' = Some false)
  ∧ (∀ r rest, reasons = Some r :: rest → Forall is_Some rest →
               __disconnectReason st = Some r).
Proof.
  intros st.
  assert (Hr : __disconnectReason st = head (since_null reasons []))
    by by apply onDisconnects_reason.
  split; [exact Hr|]. split; [apply (onDisconnects_failures reasons onAdd)|].
  split; [|split].
  - intros Hne.
    pose proof (onDisconnects_disconnecting reasons onAdd Hne) as Hd.
    pose proof (onDisconnects_signal reasons onAdd) as Hs.
    fold st in Hd, Hs. clearbody st.
    destruct st as [dis r0 lg rm cl sg]; simpl in *. subst.
    unfold onConnectionLost; simpl. eexists. repeat split.
  - intros ->. subst st. simpl. eexists. repeat split.
  - intros r rest -> Hall. rewrite Hr. simpl.
    by rewrite since_null_failures.
Qed.

(** C6 as stated fails.  A failure is handed to [onDisconnect], then a null
    reason: nothing is on record any more and the disconnected signal fires
    with success; a failure handed over after that becomes the one on
    record, although it is not the first. *)
Lemma C6_counterexample :
  let e1 := StompProtocolError "Received ERROR" in
  let e2 := StompConnectionError "Server heart-beat timeout" in
  __disconnectReason (onDisconnects [Some e1; None] onAdd) = None
  ∧ disconnected (snd (onConnectionLost "Connection was closed cleanly."
                         (onDisconnects [Some e1; None] onAdd)))
    = Some (Return ())
  ∧ __disconnectReason (onDisconnects [Some e1; None; Some e2] onAdd) = Some e2.
Proof. repeat split. Qed.

End DisconnectFacts.

(** ** Subscriptions *)

Section SubscriptionFacts.
Import Subscription.

Lemma onSubscribe_subscribed frame context l s a :
  _headers l = Some a → onSubscribe frame context l s = (l, s).
Proof.
  intros Ha. unfold onSubscribe. rewrite Ha. by destruct (negb _).
Qed.

Lemma onSubscribe_replay (calls : list (StompFrame * nat)) l s a :
  _headers l = Some a →
  foldl (λ ls fc, onSubscribe fc.1 fc.2 ls.1 ls.2) (l, s) calls = (l, s).
Proof.
  intros Ha. induction calls as [|[f c] calls IH]; [done|].
  simpl. by rewrite (onSubscribe_subscribed f c l s a Ha).
Qed.

Lemma setdefault_lookup key value d :
  setdefault key value d !! key = Some (default value (d !! key)).
Proof.
  unfold setdefault. destruct (d !! key) eqn:E; simpl; [done|].
  apply lookup_insert_eq.
Qed.

Lemma setdefault_other key key' value d :
  key ≠ key' → setdefault key value d !! key' = d !! key'.
Proof.
  intros Hne. unfold setdefault. destruct (d !! key); [done|].
  by apply lookup_insert_ne.
Qed.

(** C7.  The first [onSubscribe] with the listener's own context captures
    the headers of its frame, the acknowledgment mode defaulted; whatever
    [onSubscribe] calls follow, with whatever frames and contexts, neither
    the listener nor any header dictionary changes, so what was captured
    stays as it was: the acknowledgment mode and every other header. *)
Theorem C7_first_subscribe_wins id ackOn errorDestination frame s
    (calls : list (StompFrame * nat)) :
  let first := onSubscribe frame id (init id ackOn errorDestination) s in
  let after := foldl (λ ls fc, onSubscribe fc.1 fc.2 ls.1 ls.2) first calls in
  after = first
  ∧ _headers after.1 = Some (headers frame)
  ∧ captured after.1 after.2 = captured first.1 first.2
  ∧ ∀ d, dicts s !! headers frame = Some d →
         captured after.1 after.2 = Some (setdefault ACK_HEADER DEFAULT_ACK_MODE d)
         ∧ setdefault ACK_HEADER DEFAULT_ACK_MODE d !! ACK_HEADER
           = Some (default DEFAULT_ACK_MODE (d !! ACK_HEADER))
         ∧ ∀ key, key ≠ ACK_HEADER →
                  setdefault ACK_HEADER DEFAULT_ACK_MODE d !! key = d !! key.
Proof.
  intros first after.
  assert (Hfirst : first
          = ({| self := id; _ack := ackOn; _errorDestination := errorDestination;
                _headers := Some (headers frame);
                _messages := _messages (init id ackOn errorDestination) |},
             {| dicts := alter (setdefault ACK_HEADER DEFAULT_ACK_MODE)
                           (headers frame) (dicts s);
                world_of := world_of s; acks := acks s |})).
  { subst first. unfold onSubscribe. simpl. by rewrite bool_decide_eq_true_2. }
  assert (Hafter : after = first).
  { subst after. rewrite Hfirst. by eapply onSubscribe_replay. }
  rewrite Hafter. split; [done|]. rewrite Hfirst. simpl.
  split; [done|]. split; [done|].
  intros d Hd. unfold captured. simpl. rewrite lookup_alter_eq, Hd. simpl.
  split; [done|]. split; [apply setdefault_lookup|].
  intros key Hne. by apply setdefault_other.
Qed.

Lemma finalize_unsubscribed frame waiting l s :
  _ack l = true → _headers l = None →
  finalize frame waiting l s
  = (Raise (TypeError "'NoneType' object is not subscriptable"), s).
Proof. intros Hack Hh. unfold finalize. by rewrite Hack, Hh. Qed.

(** C10.  A listener with [ack] on whose [onSubscribe] has not run holds no
    headers, and handling a message of its own context ends in the
    [TypeError] of subscripting [None]: whatever the handler and the failure
    hook came to, the finalization raises, nothing is acknowledged, and the
    in-flight entry of the message is failed with that error and removed. *)
Theorem C10_message_before_subscribe_raises frame handler failed l s d id :
  _ack l = true →
  _headers l = None →
  dicts s !! headers frame = Some d →
  d !! MESSAGE_ID_HEADER = Some id →
  InFlight.waiting (_messages l) !! id = None →
  ∃ l' s',
    onMessage frame (self l) handler failed l s
    = (Raise (TypeError "'NoneType' object is not subscriptable"), l', s')
    ∧ acks s' = acks s
    ∧ dicts s' = dicts s
    ∧ InFlight.waiting (_messages l') !! id = None
    ∧ deferreds (world_of s') !! fresh (world_of s)
      = Some (Some (Failed (TypeError "'NoneType' object is not subscriptable"))).
Proof.
  intros Hack Hh Hd Hid Hfree.
  unfold onMessage. rewrite bool_decide_eq_true_2 by done. simpl.
  rewrite Hd. simpl. rewrite Hid.
  unfold InFlight.enter, InFlight.setitem. simpl. rewrite Hfree.
  unfold guarded. rewrite finalize_unsubscribed by done.
  unfold InFlight.leave, InFlight.pop. simpl. rewrite lookup_insert_eq.
  unfold called. simpl. rewrite lookup_insert_eq. simpl.
  eexists _, _. split; [reflexivity|]. simpl.
  repeat split; [apply lookup_delete_eq|].
  unfold errback, called. simpl. rewrite lookup_insert_eq. simpl.
  apply lookup_insert_eq.
Qed.

(** The other side of C10: once [onSubscribe] has run, the message of a
    handler that returns is handled to the end and, the acknowledgment mode
    being a client one by default, acknowledged. *)
Lemma onMessage_after_onSubscribe id errorDestination frame sub failed s d dsub mid :
  dicts s !! headers sub = Some dsub →
  dsub !! ACK_HEADER = None →
  dicts s !! headers frame = Some d →
  headers frame ≠ headers sub →
  d !! MESSAGE_ID_HEADER = Some mid →
  let '(l1, s1) := onSubscribe sub id (init id true errorDestination) s in
  ∃ l' s', onMessage frame id (Return ()) failed l1 s1 = (Return (), l', s')
           ∧ acks s' = acks s ++ [frame].
Proof.
  intros Hsub Hack Hd Hne Hmid.
  unfold onSubscribe. simpl. rewrite bool_decide_eq_true_2 by done. simpl.
  unfold onMessage. simpl. rewrite bool_decide_eq_true_2 by done. simpl.
  rewrite lookup_alter_ne by done. rewrite Hd. simpl. rewrite Hmid.
  unfold InFlight.enter, InFlight.setitem. simpl. rewrite lookup_empty.
  unfold guarded, finalize. simpl.
  rewrite lookup_alter_eq, Hsub. simpl. rewrite setdefault_lookup, Hack. simpl.
  unfold called. simpl. rewrite lookup_insert_eq.
  unfold InFlight.leave, InFlight.pop. simpl. rewrite lookup_insert_eq.
  eexists _, _. split; reflexivity.
Qed.

End SubscriptionFacts.

(** A message with id ["m1"] reaches a listener that never saw its
    SUBSCRIBE frame. *)
Lemma C10_message_before_subscribe_raises_witness :
  let frame := Subscription.Frame "MESSAGE" 0 "hello" in
  let l := Subscription.init 7 true None in
  let s := {| Subscription.dicts := {[0 := {["message-id" := "m1"]}]};
              Subscription.world_of := empty_world; Subscription.acks := [] |} in
  ∃ l' s',
    Subscription.onMessage frame 7 (Return ()) (λ _, Return ()) l s
    = (Raise (TypeError "'NoneType' object is not subscriptable"), l', s')
    ∧ Subscription.acks s' = []
    ∧ Subscription.dicts s' = Subscription.dicts s
    ∧ InFlight.waiting (Subscription._messages l') !! "m1" = None
    ∧ deferreds (Subscription.world_of s') !! 0
      = Some (Some (Failed (TypeError "'NoneType' object is not subscriptable"))).
Proof.
  apply (C10_message_before_subscribe_raises
           (Subscription.Frame "MESSAGE" 0 "hello") (Return ()) (λ _, Return ())
           (Subscription.init 7 true None)
           {| Subscription.dicts := {[0 := {["message-id" := "m1"]}]};
              Subscription.world_of := empty_world; Subscription.acks := [] |}
           {["message-id" := "m1"]} "m1");
    reflexivity.
Defined.

(** ** The client *)

Section ClientFacts.
Import Client.
Context {session : Type}.
Implicit Types st : Stomp (session := session).


Lemma append_nil (b : string) : EmptyString +:+ b = b.
Proof. reflexivity. Qed.



Lemma connectEndpoint_loop_all_fail (fail : nat → broker → exn) f st :
  network st = (λ n b, Raise (fail n b)) →
  (connectEndpoint_loop f st).1 = ending f
  ∧ warnings (log (connectEndpoint_loop f st).2)
    = warnings (log st)
      ++ imap (λ i b, CouldNotConnect b (fail (attempts st + i) b)) (candidates f)
  ∧ attempts (connectEndpoint_loop f st).2 = attempts st + length (candidates f)
  ∧ __protocol (connectEndpoint_loop f st).2 = __protocol st
  ∧ sends (connectEndpoint_loop f st).2 = sends st
  ∧ lost (connectEndpoint_loop f st).2 = lost st.
Proof.
  revert st; induction f as [|e|b delay rest IH]; intros st Hnet; simpl.
  - rewrite app_nil_r, Nat.add_0_r. by repeat split.
  - rewrite app_nil_r, Nat.add_0_r. by repeat split.
  - unfold endpoint_connect, _sleep.
    destruct (Qeq_bool delay 0); simpl; rewrite Hnet; simpl;
      match goal with |- context [connectEndpoint_loop rest ?s] =>
        destruct (IH s eq_refl) as (Hr & Hw & Ha & Hp & Hs & Hl) end;
      rewrite Hr, Hw, Ha, Hp, Hs, Hl; simpl;
      unfold warnings; rewrite !omap_app; simpl; rewrite !app_nil_r, Nat.add_0_r;
      rewrite <- !app_assoc; simpl;
      (repeat split; [|lia]); do 2 f_equal;
      apply imap_ext; intros i x _; simpl; do 2 f_equal; lia.
Qed.

Lemma connect_all_fail handshake frame (fail : nat → broker → exn) st :
  network st = (λ n b, Raise (fail n b)) →
  __protocol st = None →
  (connect handshake frame st).1
  = match ending (_failover st) with
    | Raise e => Raise e
    | Return _ =>
        Raise (AttributeError "'NoneType' object has no attribute 'loseConnection'")
    end
  ∧ warnings (log (connect handshake frame st).2)
    = warnings (log st)
      ++ imap (λ i b, CouldNotConnect b (fail (attempts st + i) b))
           (candidates (_failover st))
  ∧ attempts (connect handshake frame st).2
    = attempts st + length (candidates (_failover st))
  ∧ __protocol (connect handshake frame st).2 = None
  ∧ sends (connect handshake frame st).2 = sends st.
Proof.
  intros Hnet Hp.
  destruct (connectEndpoint_loop_all_fail fail (_failover st) st Hnet)
    as (Hr & Hw & Ha & Hpr & Hs & _).
  unfold connect, _protocol, _connectEndpoint. rewrite Hp.
  destruct (connectEndpoint_loop (_failover st) st) as [r st'] eqn:E.
  simpl in *. rewrite Hp in Hpr. subst r.
  assert (Hend : ∀ p, ending (_failover st) ≠ Return (Some p)).
  { clear. induction (_failover st); simpl; congruence. }
  destruct (ending (_failover st)) as [[p|]|e]; simpl.
  - by destruct (Hend p).
  - unfold warnings in *. rewrite omap_app. simpl. by rewrite app_nil_r.
  - unfold warnings in *. rewrite omap_app. simpl. by rewrite app_nil_r.
Qed.

(** C3, as the code has it.  When every attempt to reach a candidate fails,
    each failure is caught and written to the log as a warning that names
    the broker and the failure, the next candidate being tried; every
    candidate is tried, the connect operation fails, and no transport is
    kept or written to.  The error is the one the failover sequence raises
    when it runs out, if it raises one; it is the same whatever the
    candidates failed with. *)
Theorem C3_candidate_failures_logged_sequence_error_raised
    handshake frame (fail : nat → broker → exn) st :
  network st = (λ n b, Raise (fail n b)) →
  __protocol st = None →
  (∃ e, (connect handshake frame st).1 = Raise e)
  ∧ (∀ e, ending (_failover st) = Raise e → (connect handshake frame st).1 = Raise e)
  ∧ warnings (log (connect handshake frame st).2)
    = warnings (log st)
      ++ imap (λ i b, CouldNotConnect b (fail (attempts st + i) b))
           (candidates (_failover st))
  ∧ attempts (connect handshake frame st).2
    = attempts st + length (candidates (_failover st))
  ∧ __protocol (connect handshake frame st).2 = None
  ∧ sends (connect handshake frame st).2 = sends st
  ∧ (∀ fail' : nat → broker → exn,
       (connect handshake frame (with_network (λ n b, Raise (fail' n b)) st)).1
       = (connect handshake frame st).1).
Proof.
  intros Hnet Hp.
  destruct (connect_all_fail handshake frame fail st Hnet Hp)
    as (Hr & Hw & Ha & Hpr & Hs).
  split; [rewrite Hr; destruct (ending _); eauto|].
  split; [intros e He; by rewrite Hr, He|].
  split; [exact Hw|]. split; [exact Ha|]. split; [exact Hpr|]. split; [exact Hs|].
  intros fail'.
  destruct (connect_all_fail handshake frame fail'
              (with_network (λ n b, Raise (fail' n b)) st) eq_refl Hp) as (Hr' & _).
  by rewrite Hr', Hr.
Qed.


(** C9, as the code has it.  On a connected client, [unsubscribe] asks the
    session for the UNSUBSCRIBE frame before it looks at the subscription
    table: when the session refuses the token, its error goes to the caller
    and nothing is removed or sent, whether or not the token is in the
    table.  When the session accepts it, a token that is not in the table
    raises the [KeyError] of the table, leaves a warning in the log, sends
    nothing and leaves the table as it is; for a token in the table the
    entry is removed and the UNSUBSCRIBE frame of the session goes to the
    transport. *)
Theorem C9_unsubscribe
    (session_unsubscribe : session → token → option string → result (StompFrame * session))
    tok receipt st p :
  __protocol st = Some p →
  let out := unsubscribe session_unsubscribe tok receipt st in
  match session_unsubscribe (the_session st) tok receipt with
  | Raise e => out = (Raise e, st)
  | Return (frame, s') =>
      match _subscriptions st !! tok with
      | None =>
          out.1 = Raise (KeyError (Pair tok.1 tok.2))
          ∧ warnings (log out.2) = warnings (log st) ++ [CannotUnsubscribe tok]
          ∧ sends out.2 = sends st
          ∧ _subscriptions out.2 = _subscriptions st
      | Some _ =>
          out.1 = Return ()
          ∧ _subscriptions out.2 = delete tok (_subscriptions st)
          ∧ _subscriptions out.2 !! tok = None
          ∧ sends out.2 = sends st ++ [(p, frame)]
          ∧ log out.2 = log st
      end
  end.
Proof.
  intros Hp out. subst out. unfold unsubscribe, _protocol. rewrite Hp.
  destruct (session_unsubscribe _ _ _) as [[frame s']|e]; simpl; [|done].
  destruct (_subscriptions st !! tok) as [sub|] eqn:Hsub; simpl.
  - repeat split. apply lookup_delete_eq.
  - unfold warnings. rewrite omap_app. by repeat split.
Qed.

End ClientFacts.

(** Two brokers, both refusing the connection; the failover sequence raises
    when it runs out. *)
Lemma C3_candidate_failures_logged_sequence_error_raised_witness :
  let st : Client.Stomp (session := unit) :=
    {| Client.the_session := ();
       Client._failover :=
         Client.Candidate (Client.Broker "a" 61613) 0%Q
           (Client.Candidate (Client.Broker "b" 61613) (2 # 1)%Q
              (Client.Raises (StompConnectTimeout "Reconnect timeout: 2 attempts")));
       Client.__protocol := None; Client._connectedSignal := None;
       Client._subscriptions := ∅; Client.log := [];
       Client.network := λ _ _, Raise (TransportError "Connection refused");
       Client.attempts := 0; Client.slept := []; Client.sends := [];
       Client.lost := []; Client.disconnects := [];
       Client.disconnect_running := false; Client.reactor := empty_world |} in
  (Client.connect (λ _ _, Return ()) (Client.Frame "CONNECT" ∅ "") st).1
  = Raise (StompConnectTimeout "Reconnect timeout: 2 attempts").
Proof.
  intros st.
  refine (proj1 (proj2 (C3_candidate_failures_logged_sequence_error_raised
                          (λ _ _, Return ()) (Client.Frame "CONNECT" ∅ "")
                          (λ _ _, TransportError "Connection refused") st
                          eq_refl eq_refl)) _ eq_refl).
Defined.

(** C3 as stated fails.  With a failover sequence that just ends, the
    connect operation fails with the [AttributeError] of [None], no
    connection error; with one that raises at its end, it fails with that
    error, the same whether the last candidate refused the connection or
    timed out. *)
Lemma C3_counterexample :
  let st (f : Client.failover) (last : exn) : Client.Stomp (session := unit) :=
    {| Client.the_session := (); Client._failover := f;
       Client.__protocol := None; Client._connectedSignal := None;
       Client._subscriptions := ∅; Client.log := [];
       Client.network := λ n _, match n with
                                | 0 => Raise (TransportError "Connection refused")
                                | _ => Raise last
                                end;
       Client.attempts := 0; Client.slept := []; Client.sends := [];
       Client.lost := []; Client.disconnects := [];
       Client.disconnect_running := false; Client.reactor := empty_world |} in
  let brokers ending :=
    Client.Candidate (Client.Broker "a" 61613) 0%Q
      (Client.Candidate (Client.Broker "b" 61613) (2 # 1)%Q ending) in
  let connect := Client.connect (λ _ _, Return ()) (Client.Frame "CONNECT" ∅ "") in
  (connect (st (brokers Client.Exhausted) (TransportError "Connection refused"))).1
  = Raise (AttributeError "'NoneType' object has no attribute 'loseConnection'")
  ∧ is_connection_error
      (AttributeError "'NoneType' object has no attribute 'loseConnection'") = false
  ∧ (connect (st (brokers (Client.Raises (StompConnectTimeout "Reconnect timeout")))
                 (TransportError "Connection refused"))).1
    = Raise (StompConnectTimeout "Reconnect timeout")
  ∧ (connect (st (brokers (Client.Raises (StompConnectTimeout "Reconnect timeout")))
                 (TransportError "User timeout caused connection failure"))).1
    = Raise (StompConnectTimeout "Reconnect timeout").
Proof. repeat split. Qed.

(** A connected client with one subscription, and a session that knows the
    same tokens. *)
Lemma C9_unsubscribe_witness :
  let tok : Client.token := ("id"%string, "0"%string) in
  let st : Client.Stomp (session := unit) :=
    {| Client.the_session := (); Client._failover := Client.Exhausted;
       Client.__protocol := Some 1; Client._connectedSignal := None;
       Client._subscriptions :=
         {[tok := Client.Subscription "/queue/a" (Client.Callable 0) true None]};
       Client.log := [];
       Client.network := λ _ _, Raise (TransportError "Connection refused");
       Client.attempts := 0; Client.slept := []; Client.sends := [];
       Client.lost := []; Client.disconnects := [];
       Client.disconnect_running := false; Client.reactor := empty_world |} in
  let session_unsubscribe (_ : unit) (t : Client.token) (_ : option string) :=
    Return (Client.Frame "UNSUBSCRIBE" {[t.1 := t.2]} "", ()) in
  Client.__protocol st = Some 1
  ∧ (Client.unsubscribe session_unsubscribe tok None st).1 = Return ()
  ∧ (Client.unsubscribe session_unsubscribe ("id"%string, "1"%string) None st).1
    = Raise (KeyError (Py.Pair "id" "1")).
Proof.
  intros tok st session_unsubscribe. split; [reflexivity|].
  pose proof (C9_unsubscribe session_unsubscribe tok None st 1 eq_refl) as Hin.
  pose proof (C9_unsubscribe session_unsubscribe ("id"%string, "1"%string) None st 1
                eq_refl) as Hout.
  split.
  - exact (proj1 Hin).
  - exact (proj1 Hout).
Defined.

(** C9 as stated fails.  The token is in the subscription table of the
    client and the session refuses it: [unsubscribe] raises the error of the
    session, the record stays in the table and no frame is sent. *)
Lemma C9_counterexample :
  let tok : Client.token := ("id"%string, "0"%string) in
  let st : Client.Stomp (session := unit) :=
    {| Client.the_session := (); Client._failover := Client.Exhausted;
       Client.__protocol := Some 1; Client._connectedSignal := None;
       Client._subscriptions :=
         {[tok := Client.Subscription "/queue/a" (Client.Callable 0) true None]};
       Client.log := [];
       Client.network := λ _ _, Raise (TransportError "Connection refused");
       Client.attempts := 0; Client.slept := []; Client.sends := [];
       Client.lost := []; Client.disconnects := [];
       Client.disconnect_running := false; Client.reactor := empty_world |} in
  let session_unsubscribe (_ : unit) (t : Client.token) (_ : option string)
    : result (Client.StompFrame * unit) :=
    Raise (StompProtocolError "No such subscription") in
  let out := Client.unsubscribe session_unsubscribe tok None st in
  Client.__protocol st = Some 1
  ∧ is_Some (Client._subscriptions st !! tok)
  ∧ out.1 = Raise (StompProtocolError "No such subscription")
  ∧ is_Some (Client._subscriptions out.2 !! tok)
  ∧ Client.sends out.2 = [].
Proof. repeat split; by eexists. Qed.


(** ** The connect and error listeners *)

Section ListenerFacts.
Import Listeners.

(** [ErrorListener.onError] knows no exception: whatever the ERROR frame
    says, [disconnect] is called with a protocol error. *)
Lemma ErrorListener_onError_disconnects info st :
  disconnects (ErrorListener_onError info st)
  = disconnects st ++ [StompProtocolError ("Received " +:+ info)].
Proof. reflexivity. Qed.

(** [ConnectListener.onError] fails the wait for the CONNECTED frame with a
    protocol error and takes the listener off the connection. *)
Lemma ConnectListener_onError_rejects info st d :
  _waiting st = Some d → called d (reactor st) = false →
  deferreds (reactor (ConnectListener_onError info st)) !! d
  = Some (Some (Failed (StompProtocolError
                          ("While trying to connect, received " +:+ info))))
  ∧ disconnects (ConnectListener_onError info st) = disconnects st.
Proof.
  intros Hw Hc. unfold ConnectListener_onError, ConnectListener_onConnectionLost.
  simpl. rewrite Hw, Hc. simpl. unfold errback. rewrite Hc. simpl.
  split; [apply lookup_insert_eq | done].
Qed.

End ListenerFacts.

(** ** Heart-beats: what the listener keeps over its life *)

Section HeartBeatInvariants.
Import HeartBeat HeartBeatEvents.

Lemma same_timers_trans st1 st2 st3 :
  same_timers st1 st2 → same_timers st2 st3 → same_timers st1 st3.
Proof. intros (?&?&?) (?&?&?). repeat split; congruence. Qed.

Lemma same_timers_beatRemaining wh st : same_timers st (_beatRemaining wh st).2.
Proof. unfold _beatRemaining. by destruct (decide _). Qed.

Lemma same_periods_trans st1 st2 st3 :
  same_periods st1 st2 → same_periods st2 st3 → same_periods st1 st3.
Proof. intros (?&?&?) (?&?&?). repeat split; congruence. Qed.

Lemma same_periods_beatRemaining wh st : same_periods st (_beatRemaining wh st).2.
Proof. unfold _beatRemaining. by destruct (decide _). Qed.

Lemma same_periods_pop_cancel wh st : same_periods st (pop_cancel wh st).
Proof. unfold pop_cancel. by destruct (heartBeats st wh). Qed.

Lemma recorded_same_timers st st' : same_timers st st' → recorded st → recorded st'.
Proof. intros (Ht & Hh & Hn) Hrec. unfold recorded. by rewrite Ht, Hh, Hn. Qed.

Lemma NoDup_ids_filter (P : timer → Prop) `{∀ t, Decision (P t)} ts :
  NoDup (timer_id <$> ts) → NoDup (timer_id <$> filter P ts).
Proof.
  induction ts as [|t ts IH]; [done|].
  rewrite fmap_cons, NoDup_cons. intros [Hnin Hnd].
  rewrite filter_cons. destruct (decide (P t)); [|by apply IH].
  rewrite fmap_cons, NoDup_cons. split; [|by apply IH].
  intros Hin. apply Hnin. apply list_elem_of_fmap in Hin as (t' & -> & Hin).
  apply list_elem_of_fmap. exists t'. split; [done|].
  by apply list_elem_of_filter in Hin as [_ ?].
Qed.

(** Taking the call on record off the reactor leaves none pending for that
    direction. *)
Lemma recorded_pop_cancel wh st :
  recorded st →
  recorded (pop_cancel wh st)
  ∧ heartBeats (pop_cancel wh st) wh = None
  ∧ Forall (λ t, timer_which t ≠ wh) (timers (pop_cancel wh st)).
Proof.
  intros [Hnd Hall]. rewrite Forall_forall in Hall. unfold pop_cancel.
  destruct (heartBeats st wh) as [id|] eqn:Hid; simpl.
  - split; [split|split]; simpl.
    + by apply NoDup_ids_filter.
    + apply Forall_forall. intros t [Hne Ht]%list_elem_of_filter.
      destruct (Hall t Ht) as [Hrec Hlt]. split; [|done].
      destruct (decide (timer_which t = wh)) as [Heq|_]; [|done].
      rewrite Heq, Hid in Hrec. congruence.
    + by rewrite decide_True.
    + apply Forall_forall. intros t [Hne Ht]%list_elem_of_filter Heq.
      destruct (Hall t Ht) as [Hrec _]. rewrite Heq, Hid in Hrec. congruence.
  - split; [by split; [|apply Forall_forall]|]. split; [done|].
    apply Forall_forall. intros t Ht Heq.
    destruct (Hall t Ht) as [Hrec _]. rewrite Heq, Hid in Hrec. congruence.
Qed.

Lemma recorded_callLater r wh st :
  recorded st → Forall (λ t, timer_which t ≠ wh) (timers st) →
  recorded (callLater r wh st).
Proof.
  intros [Hnd Hall] Hwh. rewrite Forall_forall in Hall, Hwh.
  split; simpl.
  - rewrite fmap_app. apply NoDup_app. split; [done|]. split; [|apply NoDup_singleton].
    intros id Hin ->%list_elem_of_singleton.
    apply list_elem_of_fmap in Hin as (t & Hid & Ht).
    destruct (Hall t Ht) as [_ Hlt]. simpl in Hid. lia.
  - apply Forall_app. split.
    + apply Forall_forall. intros t Ht. destruct (Hall t Ht) as [Hrec Hlt].
      split; [|lia]. rewrite decide_False; [done|]. by apply Hwh.
    + apply Forall_singleton. simpl. split; [by rewrite decide_True | lia].
Qed.

(** What [_beat] comes to: the call on record is cancelled, and then either
    nothing is scheduled or one call for the same direction is. *)
Lemma beat_shape conn wh st :
  ∃ st1, same_timers (pop_cancel wh st) st1
         ∧ same_periods st st1
         ∧ (_beat conn wh st = st1 ∨ ∃ r, _beat conn wh st = callLater r wh st1).
Proof.
  unfold _beat.
  pose proof (same_periods_pop_cancel wh st) as Hp0.
  set (st0 := pop_cancel wh st) in *. clearbody st0.
  destruct conn; simpl.
  2:{ exists st0. split; [by repeat split|]. split; [done | by left]. }
  pose proof (same_timers_beatRemaining wh st0) as Ht1.
  pose proof (same_periods_beatRemaining wh st0) as Hp1.
  destruct (_beatRemaining wh st0) as [r st1]. simpl in *.
  pose proof (same_periods_trans _ _ _ Hp0 Hp1) as Hp01.
  destruct (Qlt_le_dec r 0).
  { exists st1. split; [done|]. split; [done | by left]. }
  destruct (Qeq_bool r 0).
  - destruct wh.
    + pose proof (same_timers_beatRemaining client (sendFrame beat st1)) as Ht2.
      pose proof (same_periods_beatRemaining client (sendFrame beat st1)) as Hp2.
      destruct (_beatRemaining client (sendFrame beat st1)) as [r' st2]. simpl in *.
      exists st2. split; [|split].
      * eapply same_timers_trans; [exact Ht1|]. exact Ht2.
      * eapply same_periods_trans; [exact Hp01|]. exact Hp2.
      * right. by exists r'.
    + exists (disconnect (StompConnectionError "Server heart-beat timeout") st1).
      split; [exact Ht1|]. split; [exact Hp01 | by left].
  - exists st1. split; [done|]. split; [done|]. right. by exists r.
Qed.

Lemma recorded_beat conn wh st : recorded st → recorded (_beat conn wh st).
Proof.
  intros Hrec. destruct (recorded_pop_cancel wh st Hrec) as (Hrec0 & _ & Hwh).
  destruct (beat_shape conn wh st) as (st1 & Ht & _ & [->|[r ->]]).
  - by eapply recorded_same_timers.
  - apply recorded_callLater; [by eapply recorded_same_timers|].
    destruct Ht as (-> & _). done.
Qed.

Lemma recorded_fire id st : recorded st → recorded (fire id st).
Proof.
  intros Hrec. unfold fire. destruct (list_find _ _) as [[i t]|]; [|done].
  apply recorded_beat. destruct Hrec as [Hnd Hall]. split; simpl.
  - by apply NoDup_ids_filter.
  - rewrite Forall_forall in Hall. apply Forall_forall.
    intros t' [_ Ht']%list_elem_of_filter. by apply Hall.
Qed.

Lemma recorded_step st e : recorded st → recorded (step st e).
Proof.
  intros Hrec. destruct e; simpl.
  - by do 2 apply recorded_beat.
  - by do 2 apply recorded_beat.
  - done.
  - done.
  - by apply recorded_fire.
Qed.

Lemma recorded_init thr clk s : recorded (init thr clk s).
Proof. split; simpl; constructor. Qed.

Lemma reachable_recorded thr clk s events : recorded (run events (init thr clk s)).
Proof.
  unfold run. generalize (recorded_init thr clk s).
  generalize (init thr clk s). induction events as [|e events IH]; [done|].
  intros st0 H0. simpl. apply IH. by apply recorded_step.
Qed.

(** X1.  From its creation on, whatever hooks are called and whatever
    delayed calls the reactor runs, the listener has at most one check
    pending for each direction, and every pending check is the one it has on
    record (so that it can cancel it). *)
Theorem heartbeat_one_timer_per_direction thr clk s (events : list event) :
  let st := run events (init thr clk s) in
  recorded st
  ∧ (∀ i j t1 t2, timers st !! i = Some t1 → timers st !! j = Some t2 →
                  timer_which t1 = timer_which t2 → i = j)
  ∧ length (timers st) ≤ 2.
Proof.
  intros st.
  assert (Hrec : recorded st) by apply reachable_recorded.
  assert (Huniq : ∀ i j t1 t2,
            timers st !! i = Some t1 → timers st !! j = Some t2 →
            timer_which t1 = timer_which t2 → i = j).
  { intros i j t1 t2 Hi Hj Hw. destruct Hrec as [Hnd Hall].
    rewrite Forall_forall in Hall.
    destruct (Hall t1 (list_elem_of_lookup_2 _ _ _ Hi)) as [H1 _].
    destruct (Hall t2 (list_elem_of_lookup_2 _ _ _ Hj)) as [H2 _].
    rewrite Hw, H2 in H1.
    eapply NoDup_lookup; [exact Hnd|..]; rewrite list_lookup_fmap.
    - by rewrite Hi.
    - rewrite Hj. simpl. congruence. }
  split; [done|]. split; [done|].
  destruct (timers st) as [|t1 [|t2 [|t3 ts]]] eqn:E; simpl; try lia.
  exfalso.
  destruct (timer_which t1) eqn:W1, (timer_which t2) eqn:W2.
  - by specialize (Huniq 0 1 t1 t2 eq_refl eq_refl ltac:(congruence)).
  - destruct (timer_which t3) eqn:W3.
    + by specialize (Huniq 0 2 t1 t3 eq_refl eq_refl ltac:(congruence)).
    + by specialize (Huniq 1 2 t2 t3 eq_refl eq_refl ltac:(congruence)).
  - destruct (timer_which t3) eqn:W3.
    + by specialize (Huniq 1 2 t2 t3 eq_refl eq_refl ltac:(congruence)).
    + by specialize (Huniq 0 2 t1 t3 eq_refl eq_refl ltac:(congruence)).
  - by specialize (Huniq 0 1 t1 t2 eq_refl eq_refl ltac:(congruence)).
Qed.

(** X2.  When the connection is lost, every pending check is cancelled and
    none stays on record; nothing is sent, nothing disconnected and the
    clock is not read. *)
Theorem heartbeat_connection_lost_disarms thr clk s (events : list event) :
  let st := run events (init thr clk s) in
  timers (onConnectionLost st) = []
  ∧ (∀ wh, heartBeats (onConnectionLost st) wh = None)
  ∧ wire (onConnectionLost st) = wire st
  ∧ disconnects (onConnectionLost st) = disconnects st
  ∧ session (onConnectionLost st) = session st
  ∧ reads (onConnectionLost st) = reads st.
Proof.
  intros st. pose proof (reachable_recorded thr clk s events) as Hrec. fold st in Hrec.
  clearbody st. unfold onConnectionLost, _beats, _beat. simpl.
  destruct (recorded_pop_cancel client st Hrec) as (Hrec1 & Hc1 & Hall1).
  destruct (recorded_pop_cancel server _ Hrec1) as (Hrec2 & Hs2 & Hall2).
  set (st1 := pop_cancel client st) in *.
  assert (Hc2 : heartBeats (pop_cancel server st1) client = None).
  { unfold pop_cancel. destruct (heartBeats st1 server); simpl; exact Hc1. }
  split.
  { destruct (timers (pop_cancel server st1)) as [|t ts] eqn:E; [done|].
    exfalso. apply Forall_cons in Hall2 as [Hns _].
    destruct Hrec2 as [_ Hall]. rewrite E in Hall. apply Forall_cons in Hall as [[Ht _] _].
    destruct (timer_which t); [|done]. rewrite Hc2 in Ht. done. }
  split; [by intros []|].
  unfold pop_cancel, st1, pop_cancel.
  destruct (heartBeats st client); simpl; destruct (heartBeats st server); simpl;
    repeat (case_decide; simpl); try done;
    destruct (heartBeats st server); done.
Qed.

(** How the remaining time reads: it is [-1] for a direction whose period is
    0, and the clock is not read then; otherwise it is the threshold times
    the period, in seconds, less the time since the last activity, and 0 if
    that is negative. *)
Lemma beatRemaining_cases wh st :
  let period := match wh with
                | client => clientHeartBeat (session st)
                | server => serverHeartBeat (session st)
                end in
  let last := match wh with
              | client => lastSent (session st)
              | server => lastReceived (session st)
              end in
  (period = 0%Z ∧ _beatRemaining wh st = ((-1 # 1)%Q, st))
  ∨ (period ≠ 0%Z
     ∧ (_beatRemaining wh st).1
       = max0 (thresholds st wh * inject_Z period / (1000 # 1)
               - (clock st (reads st) - last))%Q
     ∧ (_beatRemaining wh st).2 = (time_time st).2).
Proof.
  unfold _beatRemaining. destruct wh; simpl; destruct (decide _); auto.
Qed.

Lemma max0_sub_le (x e : Q) : (0 <= x)%Q → (0 <= e)%Q → (max0 (x - e) <= x)%Q.
Proof. intros Hx He. unfold max0. destruct (Qlt_le_dec _ 0); lra. Qed.

(** X3.  The remaining time of a direction is negative exactly when the
    direction is disabled (period 0); for an enabled direction it is never
    negative, and never more than the threshold times the period when the
    clock is not behind the last activity. *)
Theorem heartbeat_remaining_sign wh st :
  let period := match wh with
                | client => clientHeartBeat (session st)
                | server => serverHeartBeat (session st)
                end in
  let last := match wh with
              | client => lastSent (session st)
              | server => lastReceived (session st)
              end in
  ((_beatRemaining wh st).1 < 0 ↔ period = 0%Z)%Q
  ∧ (period ≠ 0%Z → (0 <= (_beatRemaining wh st).1)%Q)
  ∧ (period ≠ 0%Z → (last <= clock st (reads st))%Q →
     (0 <= thresholds st wh * inject_Z period / (1000 # 1))%Q →
     ((_beatRemaining wh st).1 <= thresholds st wh * inject_Z period / (1000 # 1))%Q).
Proof.
  intros period last.
  destruct (beatRemaining_cases wh st) as [[Hz Hr]|(Hnz & Hr & _)];
    fold period in Hz || fold period in Hnz; fold last in Hr || idtac.
  - rewrite Hr. simpl. split; [done|]. split; intros; done.
  - rewrite Hr. split; [|split].
    + split; [|done]. intros Hlt. exfalso.
      apply (Qlt_not_le _ _ Hlt). apply max0_nonneg.
    + intros _. apply max0_nonneg.
    + intros _ Hlast Hpos. apply max0_sub_le; [done|].
      clear -Hlast. clearbody last. revert Hlast.
      generalize (clock st (reads st)). intros now Hlast. lra.
Qed.

Lemma same_periods_beat conn wh st : same_periods st (_beat conn wh st).
Proof.
  destruct (beat_shape conn wh st) as (st1 & _ & Hp & [->|[r ->]]); [done|].
  exact Hp.
Qed.

(** What a check can do to the outside: send one heart-beat, for the
    outbound direction with a period, or disconnect once, for the inbound
    direction with a period; never both, and nothing else. *)
Lemma beat_effects conn wh st :
  (wire (_beat conn wh st) = wire st
   ∨ (wh = client ∧ clientHeartBeat (session st) ≠ 0%Z
      ∧ wire (_beat conn wh st) = wire st ++ [StompHeartBeat]))
  ∧ (disconnects (_beat conn wh st) = disconnects st
     ∨ (wh = server ∧ serverHeartBeat (session st) ≠ 0%Z
        ∧ disconnects (_beat conn wh st)
          = disconnects st ++ [StompConnectionError "Server heart-beat timeout"])).
Proof.
  destruct st as [clk r thr hbs [chb shb ls lr] w ds ts nt].
  unfold _beat, pop_cancel, _beatRemaining, sendFrame, onSend, sent,
    callLater, disconnect, time_time, set_session; simpl.
  destruct wh, conn, (hbs _); simpl;
    try (destruct (decide (chb = 0%Z)); simpl);
    try (destruct (decide (shb = 0%Z)); simpl);
    repeat (match goal with
            | |- context [Qlt_le_dec ?a ?b] => destruct (Qlt_le_dec a b); simpl
            | |- context [Qeq_bool ?a ?b] => destruct (Qeq_bool a b); simpl
            | |- context [decide (chb = 0%Z)] => destruct (decide (chb = 0%Z)); simpl
            end);
    split; auto.
Qed.

Lemma step_effects st e :
  same_periods st (step st e)
  ∧ (clientHeartBeat (session st) = 0%Z → wire (step st e) = wire st)
  ∧ (serverHeartBeat (session st) = 0%Z → disconnects (step st e) = disconnects st).
Proof.
  assert (Hbeat : ∀ conn wh st0,
            same_periods st0 (_beat conn wh st0)
            ∧ (clientHeartBeat (session st0) = 0%Z → wire (_beat conn wh st0) = wire st0)
            ∧ (serverHeartBeat (session st0) = 0%Z
               → disconnects (_beat conn wh st0) = disconnects st0)).
  { intros conn wh st0. split; [apply same_periods_beat|].
    destruct (beat_effects conn wh st0) as [[Hw|(_ & Hc & _)] [Hd|(_ & Hs & _)]];
      split; intros; done. }
  assert (Hbeats : ∀ conn st0,
            same_periods st0 (_beats conn st0)
            ∧ (clientHeartBeat (session st0) = 0%Z → wire (_beats conn st0) = wire st0)
            ∧ (serverHeartBeat (session st0) = 0%Z
               → disconnects (_beats conn st0) = disconnects st0)).
  { intros conn st0. unfold _beats.
    destruct (Hbeat conn client st0) as (Hp1 & Hw1 & Hd1).
    destruct (Hbeat conn server (_beat conn client st0)) as (Hp2 & Hw2 & Hd2).
    split; [by eapply same_periods_trans|].
    destruct Hp1 as (Hc & Hs & _).
    split; intros Hz; [rewrite Hw2, Hw1 | rewrite Hd2, Hd1]; congruence. }
  destruct e; simpl.
  - apply Hbeats.
  - apply Hbeats.
  - done.
  - done.
  - unfold fire. destruct (list_find _ _) as [[i t]|]; [|done].
    match goal with |- context [_beat true ?w ?s] =>
      destruct (Hbeat true w s) as (Hp & Hw & Hd) end.
    split; [exact Hp|]. split; [exact Hw | exact Hd].
Qed.

(** X4.  A direction whose negotiated period is 0 stays idle for the life of
    the listener: with no client period no heart-beat is ever sent, with no
    server period the listener never disconnects, whatever frames come and
    go and whatever delayed calls run. *)
Theorem heartbeat_disabled_direction_idle thr clk s (events : list event) wh :
  match wh with
  | client => clientHeartBeat s
  | server => serverHeartBeat s
  end = 0%Z →
  match wh with
  | client => wire (run events (init thr clk s)) = []
  | server => disconnects (run events (init thr clk s)) = []
  end.
Proof.
  intros Hz.
  assert (Hinv : ∀ st,
            match wh with
            | client => clientHeartBeat (session st)
            | server => serverHeartBeat (session st)
            end = 0%Z →
            match wh with
            | client => wire (run events st) = wire st
            | server => disconnects (run events st) = disconnects st
            end).
  { induction events as [|e events IH]; intros st Hst; [by destruct wh|].
    change (run (e :: events) st) with (run events (step st e)).
    destruct (step_effects st e) as ((Hc & Hs & _) & Hw & Hd).
    destruct wh.
    - rewrite IH by congruence. by apply Hw.
    - rewrite IH by congruence. by apply Hd. }
  specialize (Hinv (init thr clk s)). destruct wh; by apply Hinv.
Qed.

(** X5.  A check that finds time remaining sends nothing and disconnects
    nothing: it schedules one check of the same direction after exactly the
    remaining time, and puts it on record. *)
Theorem heartbeat_check_rearms_for_remaining wh st :
  (0 < (_beatRemaining wh st).1)%Q →
  let st' := _beat true wh st in
  wire st' = wire st
  ∧ disconnects st' = disconnects st
  ∧ heartBeats st' wh = Some (next_timer st)
  ∧ timers st'
    = timers (pop_cancel wh st)
      ++ [Timer (next_timer st) (_beatRemaining wh st).1 wh].
Proof.
  intros Hpos. unfold _beat. simpl. rewrite beatRemaining_pop_cancel.
  destruct (Qlt_le_dec _ 0) as [Hlt|_].
  { exfalso. apply (Qlt_irrefl 0). by eapply Qlt_trans. }
  destruct (Qeq_bool _ 0) eqn:Hz.
  { apply Qeq_bool_iff in Hz. rewrite Hz in Hpos. by apply Qlt_irrefl in Hpos. }
  clear Hpos Hz.
  destruct st as [clk r thr hbs [chb shb ls lr] w ds ts nt].
  unfold _beatRemaining, pop_cancel; simpl.
  destruct wh; simpl; destruct (decide _); simpl;
    [destruct (hbs client) | destruct (hbs client)
    | destruct (hbs server) | destruct (hbs server)]; simpl; repeat split.
Qed.

End HeartBeatInvariants.

(** No client period was negotiated, and frames are sent, a check runs and
    the connection comes up again. *)
Lemma heartbeat_disabled_direction_idle_witness :
  let s := {| HeartBeat.clientHeartBeat := 0; HeartBeat.serverHeartBeat := 1000;
              HeartBeat.lastSent := 0%Q; HeartBeat.lastReceived := 0%Q |} in
  let events := [HeartBeatEvents.Connected; HeartBeatEvents.FrameSent;
                 HeartBeatEvents.TimerFired 0; HeartBeatEvents.Connected] in
  HeartBeat.wire (HeartBeatEvents.run events (HeartBeat.init None (λ _, 1%Q) s)) = [].
Proof.
  exact (heartbeat_disabled_direction_idle None (λ _, 1%Q)
           {| HeartBeat.clientHeartBeat := 0; HeartBeat.serverHeartBeat := 1000;
              HeartBeat.lastSent := 0%Q; HeartBeat.lastReceived := 0%Q |}
           [HeartBeatEvents.Connected; HeartBeatEvents.FrameSent;
            HeartBeatEvents.TimerFired 0; HeartBeatEvents.Connected]
           HeartBeat.client eq_refl).
Defined.

(** Server period 1000 ms, threshold 2.0, last frame at 0, the check at
    0.5 s: 1.5 s remain. *)
Lemma heartbeat_check_rearms_for_remaining_witness :
  let st := {| HeartBeat.clock := λ _, (1 # 2)%Q; HeartBeat.reads := 0;
               HeartBeat.thresholds := HeartBeat.DEFAULT_THRESHOLDS;
               HeartBeat.heartBeats := λ _, None;
               HeartBeat.session :=
                 {| HeartBeat.clientHeartBeat := 0; HeartBeat.serverHeartBeat := 1000;
                    HeartBeat.lastSent := 0%Q; HeartBeat.lastReceived := 0%Q |};
               HeartBeat.wire := []; HeartBeat.disconnects := [];
               HeartBeat.timers := []; HeartBeat.next_timer := 0 |} in
  (0 < (HeartBeat._beatRemaining HeartBeat.server st).1)%Q
  ∧ HeartBeat.disconnects (HeartBeat._beat true HeartBeat.server st) = [].
Proof.
  intros st. split; [reflexivity|].
  refine (proj1 (proj2 (heartbeat_check_rearms_for_remaining HeartBeat.server st _))).
  reflexivity.
Defined.

(** ** Graceful disconnect: the flag *)

Section DisconnectMore.
Import Disconnect DisconnectLog.

Lemma onDisconnect_again reason st :
  _disconnecting st = true →
  infos_logged (log (onDisconnect reason st)) = infos_logged (log st)
  ∧ _disconnecting (onDisconnect reason st) = true.
Proof.
  intros Hd. unfold onDisconnect, infos_logged.
  destruct reason as [r|], st as [dis r0 lg rm cl sg]; simpl in *; subst; simpl;
    [|done].
  rewrite omap_app. simpl. by rewrite app_nil_r.
Qed.

(** X6.  However often [onDisconnect] is called, and with whatever reasons,
    the listener announces the disconnect once, in the words of the first
    call, and from then on it is disconnecting. *)
Theorem disconnect_announced_once (reason : option exn) (reasons : list (option exn)) :
  let st := onDisconnects (reason :: reasons) onAdd in
  infos_logged (log st)
  = ["Disconnecting ..."
     +:+ match reason with
         | Some r => " [reason=" +:+ str r +:+ "]"
         | None => ""
         end]
  ∧ _disconnecting st = true.
Proof.
  simpl.
  assert (H1 : infos_logged (log (onDisconnect reason onAdd))
               = ["Disconnecting ..."
                  +:+ match reason with
                      | Some r => " [reason=" +:+ str r +:+ "]"
                      | None => ""
                      end]
               ∧ _disconnecting (onDisconnect reason onAdd) = true).
  { by destruct reason as [r|]. }
  revert H1. generalize (onDisconnect reason onAdd).
  induction reasons as [|r rs IH]; intros st [Hl Hd]; [done|].
  simpl. apply IH. destruct (onDisconnect_again r st Hd) as [Hl' Hd'].
  split; [by rewrite Hl' | done].
Qed.

End DisconnectMore.

(** ** Subscriptions: handling a message *)

Section SubscriptionMore.
Import Subscription.

Lemma called_callback d v w : called d (callback d v w).2 = true.
Proof.
  unfold callback. destruct (called d w) eqn:Hc; simpl; [done|].
  unfold called. simpl. by rewrite lookup_insert_eq.
Qed.

Lemma called_errback d e w : called d (errback d e w).2 = true.
Proof.
  unfold errback. destruct (called d w) eqn:Hc; simpl; [done|].
  unfold called. simpl. by rewrite lookup_insert_eq.
Qed.

(** The finalization touches no dictionary; when it does not raise, the
    handle has been completed; when it raises, nothing has happened. *)
Lemma finalize_effect frame waiting l s :
  dicts (finalize frame waiting l s).2 = dicts s
  ∧ match (finalize frame waiting l s).1 with
    | Return _ => called waiting (world_of (finalize frame waiting l s).2) = true
    | Raise _ => (finalize frame waiting l s).2 = s
    end.
Proof.
  unfold finalize.
  destruct (negb (_ack l)); [|destruct (_headers l) as [a|]]; simpl; [| |done].
  - destruct (called waiting (world_of s)) eqn:Hc; simpl; [done|].
    split; [done|]. apply called_callback.
  - destruct (dicts s !! a ≫= _) as [mode|]; simpl; [|done].
    destruct (bool_decide _); simpl;
      destruct (called waiting (world_of s)) eqn:Hc; simpl; try done;
      (split; [done|]); apply called_callback.
Qed.

Lemma guarded_effect frame waiting handler failed l s :
  (guarded frame waiting handler failed l s).2 = (finalize frame waiting l s).2.
Proof.
  unfold guarded. by destruct (finalize frame waiting l s) as [[|] ?].
Qed.

(** X7.  Whatever the handler and the failure hook come to, and whether or
    not the finalization raises, handling a message of the listener's own
    subscription leaves no entry behind: the in-flight registry is as it was
    before, the handle of the message has been completed, and no header
    dictionary has changed. *)
Theorem onMessage_leaves_no_entry frame handler failed l s d mid :
  dicts s !! headers frame = Some d →
  d !! MESSAGE_ID_HEADER = Some mid →
  InFlight.waiting (_messages l) !! mid = None →
  let out := onMessage frame (self l) handler failed l s in
  _messages out.1.2 = _messages l
  ∧ _headers out.1.2 = _headers l
  ∧ called (fresh (world_of s)) (world_of out.2) = true
  ∧ dicts out.2 = dicts s.
Proof.
  intros Hd Hmid Hfree.
  unfold onMessage. rewrite bool_decide_eq_true_2 by done. simpl.
  rewrite Hd. simpl. rewrite Hmid.
  unfold InFlight.enter, InFlight.setitem. simpl. rewrite Hfree.
  match goal with |- context [guarded ?f ?w ?h ?fl ?l0 ?s0] =>
    pose proof (guarded_effect f w h fl l0 s0) as Hg;
    pose proof (finalize_effect f w l0 s0) as [Hdicts Hfin];
    destruct (guarded f w h fl l0 s0) as [r s'] eqn:Eg
  end.
  simpl in Hg. subst s'. simpl in Hdicts.
  unfold InFlight.leave, InFlight.pop. simpl. rewrite lookup_insert_eq. simpl.
  rewrite delete_insert_id by done.
  split; [by destruct (_messages l)|]. split; [done|]. split; [|done].
  match goal with |- context [if called ?d ?w then _ else _] =>
    destruct (called d w) eqn:Hc; [done|] end.
  destruct r; [apply called_callback | apply called_errback].
Qed.

(** X8.  Once the headers are captured, the acknowledgment follows the
    handler in every case: the frame is acknowledged exactly when [ack] is on
    and the captured mode is a client mode, after a handler that returned,
    after one that raised and whose exception the failure hook dealt with,
    and also when the failure hook itself raised; the result is that of the
    handler, or of the failure hook if the handler raised. *)
Theorem onMessage_acknowledges frame handler failed l s d mid a h mode :
  dicts s !! headers frame = Some d →
  d !! MESSAGE_ID_HEADER = Some mid →
  InFlight.waiting (_messages l) !! mid = None →
  _headers l = Some a →
  dicts s !! a = Some h →
  h !! ACK_HEADER = Some mode →
  let out := onMessage frame (self l) handler failed l s in
  out.1.1 = match handler with
            | Return _ => Return ()
            | Raise e => failed e
            end
  ∧ acks out.2
    = acks s ++ (if _ack l && bool_decide (mode ∈ CLIENT_ACK_MODES)
                 then [frame] else []).
Proof.
  intros Hd Hmid Hfree Ha Hh Hmode.
  unfold onMessage. rewrite bool_decide_eq_true_2 by done. simpl.
  rewrite Hd. simpl. rewrite Hmid.
  unfold InFlight.enter, InFlight.setitem. simpl. rewrite Hfree.
  unfold guarded, finalize. rewrite Ha. simpl. rewrite Hh. simpl. rewrite Hmode.
  unfold InFlight.leave, InFlight.pop.
  destruct (_ack l); simpl; [destruct (bool_decide _); simpl|];
    unfold called; simpl; rewrite !lookup_insert_eq; simpl;
    rewrite ?lookup_insert_eq; simpl; by rewrite ?app_nil_r.
Qed.

(** X9.  A MESSAGE frame without [message-id] header is refused with a
    [KeyError] before anything happens; so is a frame whose message id is
    still in flight: the entry of the handler at work stays as it is,
    nothing is acknowledged and the store does not change. *)
Theorem onMessage_refused frame handler failed l s d :
  dicts s !! headers frame = Some d →
  (d !! MESSAGE_ID_HEADER = None →
   onMessage frame (self l) handler failed l s
   = (Raise (KeyError MESSAGE_ID_HEADER), l, s))
  ∧ (∀ mid w, d !! MESSAGE_ID_HEADER = Some mid →
       InFlight.waiting (_messages l) !! mid = Some w →
       onMessage frame (self l) handler failed l s
       = (Raise (KeyError (InFlight.info (_messages l) +:+ " already in progress")),
          l, s)).
Proof.
  intros Hd. unfold onMessage. rewrite bool_decide_eq_true_2 by done. simpl.
  rewrite Hd. simpl. split.
  - by intros ->.
  - intros mid w -> Hw. unfold InFlight.enter, InFlight.setitem. simpl.
    rewrite Hw. by destruct s.
Qed.

End SubscriptionMore.

(** A listener in [client-individual] mode, a handler that raises and a
    failure hook that deals with it. *)
Lemma onMessage_acknowledges_witness :
  let frame := Subscription.Frame "MESSAGE" 0 "hello" in
  let l := {| Subscription.self := 7; Subscription._ack := true;
              Subscription._errorDestination := None;
              Subscription._headers := Some 1;
              Subscription._messages :=
                {| InFlight.info := "Handler for message"; InFlight.waiting := ∅ |} |} in
  let s := {| Subscription.dicts :=
                {[0 := {["message-id" := "m1"]};
                  1 := {["ack" := "client-individual"]}]};
              Subscription.world_of := empty_world; Subscription.acks := [] |} in
  let out := Subscription.onMessage frame 7 (Raise (RuntimeError "boom"))
               (λ _, Return ()) l s in
  out.1.1 = Return () ∧ Subscription.acks out.2 = [frame].
Proof.
  intros frame l s.
  exact (onMessage_acknowledges frame (Raise (RuntimeError "boom")) (λ _, Return ())
           l s {["message-id" := "m1"]} "m1" 1 {["ack" := "client-individual"]}
           "client-individual" eq_refl eq_refl eq_refl eq_refl eq_refl eq_refl).
Defined.

(** The same message id arrives while its handler is still at work. *)
Lemma onMessage_refused_witness :
  let frame := Subscription.Frame "MESSAGE" 0 "hello" in
  let l := {| Subscription.self := 7; Subscription._ack := true;
              Subscription._errorDestination := None;
              Subscription._headers := Some 1;
              Subscription._messages :=
                {| InFlight.info := "Handler for message";
                   InFlight.waiting := {["m1" := 3]} |} |} in
  let s := {| Subscription.dicts := {[0 := {["message-id" := "m1"]}]};
              Subscription.world_of := empty_world; Subscription.acks := [] |} in
  Subscription.onMessage frame 7 (Return ()) (λ _, Return ()) l s
  = (Raise (KeyError "Handler for message already in progress"), l, s).
Proof.
  intros frame l s.
  exact (proj2 (onMessage_refused frame (Return ()) (λ _, Return ()) l s
                  {["message-id" := "m1"]} eq_refl) "m1" 3 eq_refl eq_refl).
Defined.

(** A message of a fresh listener, handled while nothing is in flight. *)
Lemma onMessage_leaves_no_entry_witness :
  let frame := Subscription.Frame "MESSAGE" 0 "hello" in
  let l := Subscription.init 7 false None in
  let s := {| Subscription.dicts := {[0 := {["message-id" := "m1"]}]};
              Subscription.world_of := empty_world; Subscription.acks := [] |} in
  Subscription._messages
    (Subscription.onMessage frame 7 (Return ()) (λ _, Return ()) l s).1.2
  = Subscription._messages l.
Proof.
  intros frame l s.
  exact (proj1 (onMessage_leaves_no_entry frame (Return ()) (λ _, Return ()) l s
                  {["message-id" := "m1"]} "m1" eq_refl eq_refl eq_refl)).
Defined.

(** ** Receipts *)

Section ReceiptFacts.
Import InFlight Receipt.

Lemma run_until_untouched n d w :
  Forall (λ c, target (call_action c) ≠ d) (delayed w) →
  deferreds (run_until n d w) !! d = deferreds w !! d.
Proof.
  revert w; induction n as [|n IH]; intros w Hall; [done|].
  simpl. destruct (called d w); [done|].
  destruct (earliest (delayed w)) as [c|] eqn:Hc; [|done].
  pose proof (earliest_elem _ _ Hc) as Hin.
  rewrite Forall_forall in Hall.
  rewrite IH.
  - unfold fire. by rewrite deferreds_exec_other by by apply Hall.
  - unfold fire. rewrite delayed_exec. simpl. apply Forall_forall.
    intros c' [_ Hc']%list_elem_of_filter. by apply Hall.
Qed.

Lemma wait_forever d fail w :
  deferreds w !! d = Some None →
  Forall (λ c, target (call_action c) ≠ d) (delayed w) →
  ∃ w', wait d None fail w = (None, w') ∧ deferreds w' !! d = Some None.
Proof.
  intros Hd Hall. unfold wait.
  pose proof (run_until_untouched (length (delayed w)) d w Hall) as Hrun.
  rewrite Hd in Hrun. eexists. by rewrite Hrun.
Qed.

(** X10.  A frame that asks for a receipt which does not come in time: the
    send fails with the cancellation error that names the receipt, the
    registry of receipts is as it was before (the entry is not left behind),
    and a RECEIPT frame that comes after that finds no entry and raises
    [KeyError]. *)
Theorem receipt_timeout_leaves_no_entry show hdrs receipt t l w :
  hdrs !! RECEIPT_HEADER = Some receipt →
  _timeout l = Some t →
  waiting (_receipts l) !! receipt = None →
  Forall (λ c, target (call_action c) ≠ fresh w ∧ call_id c < fresh w) (delayed w) →
  ∃ w', onSend show (Some hdrs) l w
        = (Some (Raise (late show receipt (Some t))), l, w')
        ∧ deferreds w' !! fresh w = Some (Some (Failed (late show receipt (Some t))))
        ∧ onReceipt receipt l w'
          = (Raise (KeyError (info (_receipts l) +:+ " unknown")), w').
Proof.
  intros Hr Ht Hfree Hall.
  unfold onSend. rewrite Hr. unfold enter, setitem. simpl. rewrite Hfree, Ht.
  destruct (wait_timeout (fresh w) t (late show receipt (Some t)) (Deferred w).2)
    as (w' & Hw & Hd).
  { unfold called. simpl. by rewrite lookup_insert_eq. }
  { simpl. eapply Forall_impl; [exact Hall|]. simpl. intros c [? ?]. split; [done|lia]. }
  simpl in Hw. rewrite Hw.
  unfold leave, pop. simpl. rewrite lookup_insert_eq.
  unfold called. rewrite Hd. simpl.
  exists w'. split; [|split; [done|]].
  - rewrite delete_insert_id by done.
    destruct l as [t0 [i m]]; simpl in *. by subst.
  - unfold onReceipt, getitem. by rewrite Hfree.
Qed.

(** X11.  Without a timeout the listener waits for as long as it takes: if
    nothing completes the handle, the send never returns and the receipt
    stays registered. *)
Theorem receipt_without_timeout_waits show hdrs receipt l w :
  hdrs !! RECEIPT_HEADER = Some receipt →
  _timeout l = None →
  waiting (_receipts l) !! receipt = None →
  Forall (λ c, target (call_action c) ≠ fresh w) (delayed w) →
  ∃ l' w', onSend show (Some hdrs) l w = (None, l', w')
           ∧ waiting (_receipts l') !! receipt = Some (fresh w)
           ∧ deferreds w' !! fresh w = Some None.
Proof.
  intros Hr Ht Hfree Hall.
  unfold onSend. rewrite Hr. unfold enter, setitem. simpl. rewrite Hfree, Ht.
  destruct (wait_forever (fresh w) (late show receipt None) (Deferred w).2)
    as (w' & Hw & Hd).
  { simpl. by rewrite lookup_insert_eq. }
  { done. }
  simpl in Hw. rewrite Hw. eexists _, w'. split; [done|]. simpl.
  split; [apply lookup_insert_eq | done].
Qed.

(** A RECEIPT frame completes the handle registered under its receipt
    id, leaving the registry and every other handle alone; for an id that is
    not registered it raises [KeyError], and for a handle that has been
    completed already [AlreadyCalledError], the store staying as it is. *)
Theorem receipt_arrives receipt l w :
  (waiting (_receipts l) !! receipt = None →
   onReceipt receipt l w = (Raise (KeyError (info (_receipts l) +:+ " unknown")), w))
  ∧ (∀ d, waiting (_receipts l) !! receipt = Some d →
       (called d w = false →
        (onReceipt receipt l w).1 = Return ()
        ∧ deferreds (onReceipt receipt l w).2 !! d = Some (Some (Fired VNone))
        ∧ (∀ d', d' ≠ d →
             deferreds (onReceipt receipt l w).2 !! d' = deferreds w !! d')
        ∧ delayed (onReceipt receipt l w).2 = delayed w)
       ∧ (called d w = true →
          onReceipt receipt l w = (Raise AlreadyCalledError, w))).
Proof.
  unfold onReceipt, getitem. split.
  - by intros ->.
  - intros d ->. unfold callback. split; intros ->; [|done].
    simpl. split; [done|]. split; [apply lookup_insert_eq|]. split; [|done].
    intros d' Hne. by apply lookup_insert_ne.
Qed.

Lemma fail_pending_lookup w x d :
  deferreds (fail_pending w x) !! d
  = if decide (x = d) then
      if called d w then deferreds w !! d
      else Some (Some (Failed (StompCancelledError
                                 "Receipt did not arrive (connection lost)")))
    else deferreds w !! d.
Proof.
  unfold fail_pending, errback.
  destruct (decide (x = d)) as [->|Hne].
  - destruct (called d w); simpl; [done|]. apply lookup_insert_eq.
  - destruct (called x w); simpl; [done|]. by apply lookup_insert_ne.
Qed.

Lemma fail_pending_frame w x :
  delayed (fail_pending w x) = delayed w ∧ fresh (fail_pending w x) = fresh w
  ∧ now (fail_pending w x) = now w.
Proof. unfold fail_pending, errback. by destruct (called x w). Qed.

Lemma fail_all_lookup ds w d :
  deferreds (foldl fail_pending w ds) !! d
  = if decide (d ∈ ds) then
      if called d w then deferreds w !! d
      else Some (Some (Failed (StompCancelledError
                                 "Receipt did not arrive (connection lost)")))
    else deferreds w !! d.
Proof.
  revert w; induction ds as [|x ds IH]; intros w.
  - destruct (decide (d ∈ [])) as [Hin|_]; [by apply elem_of_nil in Hin | done].
  - change (foldl fail_pending w (x :: ds))
      with (foldl fail_pending (fail_pending w x) ds).
    rewrite IH. unfold called at 1. rewrite !fail_pending_lookup.
    destruct (decide (x = d)) as [->|Hne].
    + destruct (decide (d ∈ d :: ds)) as [_|Hnin]; [|by destruct Hnin; left].
      unfold called. destruct (deferreds w !! d) as [[o|]|] eqn:E; simpl;
        by destruct (decide (d ∈ ds)).
    + destruct (decide (d ∈ ds)) as [Hin|Hnin];
        destruct (decide (d ∈ x :: ds)) as [Hin'|Hnin']; try done.
      * destruct Hnin'. by right.
      * apply elem_of_cons in Hin' as [?|?]; congruence.
Qed.

Lemma fail_all_frame ds w :
  delayed (foldl fail_pending w ds) = delayed w.
Proof.
  revert w; induction ds as [|x ds IH]; intros w; [done|].
  simpl. rewrite IH. apply fail_pending_frame.
Qed.

(** X12.  When the connection is lost, every receipt still waited for is
    failed with the cancellation error; handles that have been completed
    keep their outcome, handles that are not registered are not touched,
    and nothing is scheduled or cancelled. *)
Theorem receipts_cancelled_on_connection_loss l w :
  (∀ receipt d, waiting (_receipts l) !! receipt = Some d →
     deferreds (onConnectionLost l w) !! d
     = if called d w then deferreds w !! d
       else Some (Some (Failed (StompCancelledError
                                  "Receipt did not arrive (connection lost)"))))
  ∧ (∀ d, (∀ receipt, waiting (_receipts l) !! receipt ≠ Some d) →
          deferreds (onConnectionLost l w) !! d = deferreds w !! d)
  ∧ delayed (onConnectionLost l w) = delayed w.
Proof.
  unfold onConnectionLost. split; [|split].
  - intros receipt d Hd. rewrite fail_all_lookup. rewrite decide_True; [done|].
    apply list_elem_of_fmap. exists (receipt, d). split; [done|].
    by apply elem_of_map_to_list.
  - intros d Hd. rewrite fail_all_lookup. rewrite decide_False; [done|].
    intros ([receipt d'] & -> & Hin)%list_elem_of_fmap.
    apply elem_of_map_to_list in Hin. by apply (Hd receipt).
  - apply fail_all_frame.
Qed.

End ReceiptFacts.

(** A frame asking for receipt ["r1"], a timeout of one second and no
    RECEIPT frame. *)
Lemma receipt_timeout_leaves_no_entry_witness :
  ∃ w', Receipt.onSend (λ _, "1.0"%string) (Some {["receipt" := "r1"]})
          (Receipt.init (Some 1%Q)) empty_world
        = (Some (Raise (Receipt.late (λ _, "1.0"%string) "r1" (Some 1%Q))),
           Receipt.init (Some 1%Q), w')
        ∧ deferreds w' !! 0
          = Some (Some (Failed (Receipt.late (λ _, "1.0"%string) "r1" (Some 1%Q))))
        ∧ Receipt.onReceipt "r1" (Receipt.init (Some 1%Q)) w'
          = (Raise (KeyError "Waiting for receipt unknown"), w').
Proof.
  apply (receipt_timeout_leaves_no_entry (λ _, "1.0"%string) {["receipt" := "r1"]}
           "r1" 1%Q (Receipt.init (Some 1%Q)) empty_world);
    [reflexivity | reflexivity | reflexivity | constructor].
Defined.

(** The same frame and no timeout. *)
Lemma receipt_without_timeout_waits_witness :
  ∃ l' w', Receipt.onSend (λ _, "None"%string) (Some {["receipt" := "r1"]})
             (Receipt.init None) empty_world
           = (None, l', w')
           ∧ InFlight.waiting (Receipt._receipts l') !! "r1" = Some 0
           ∧ deferreds w' !! 0 = Some None.
Proof.
  apply (receipt_without_timeout_waits (λ _, "None"%string) {["receipt" := "r1"]}
           "r1" (Receipt.init None) empty_world);
    [reflexivity | reflexivity | reflexivity | constructor].
Defined.

(** ** The connect listener *)

Section ConnectFacts.
Import InFlight Connect.

(** X13.  When the broker does not answer in time, the wait for the
    CONNECTED frame fails with the cancellation error; a CONNECTED frame
    that comes after that finds the deferred completed and raises
    [AlreadyCalledError], whereas a connection loss after that changes
    nothing; either takes the listener off the connection. *)
Theorem connect_timeout_then_late_events show t l w reason :
  Forall (λ c, target (call_action c) ≠ fresh w ∧ call_id c < fresh w) (delayed w) →
  let late := StompCancelledError
                ("STOMP broker did not answer on time [timeout="
                 +:+ show (Some t) +:+ "]") in
  let l' := {| _waiting := Some (fresh w); added := added l |} in
  ∃ w', onConnect show (Some t) l w = (Some (Raise late), l', w')
        ∧ onConnected l' w'
          = (Raise AlreadyCalledError, {| _waiting := Some (fresh w); added := false |}, w')
        ∧ onConnectionLost reason l' w'
          = ({| _waiting := Some (fresh w); added := false |}, w').
Proof.
  intros Hall late l'.
  destruct (wait_timeout (fresh w) t late (Deferred w).2) as (w' & Hw & Hd).
  { unfold called. simpl. by rewrite lookup_insert_eq. }
  { simpl. eapply Forall_impl; [exact Hall|]. simpl. intros c [? ?]. split; [done|lia]. }
  unfold onConnect. destruct (Deferred w) as [d w1] eqn:E.
  injection E as <- <-. fold late. simpl in Hw. rewrite Hw.
  exists w'. split; [done|].
  unfold onConnected, onConnectionLost, callback, called. simpl. by rewrite Hd.
Qed.

End ConnectFacts.

(** A connected timeout of five seconds on an idle reactor. *)
Lemma connect_timeout_then_late_events_witness :
  ∃ w', Connect.onConnect (λ _, "5"%string) (Some (5 # 1)%Q) Connect.onAdd empty_world
        = (Some (Raise (StompCancelledError
                          "STOMP broker did not answer on time [timeout=5]")),
           {| Connect._waiting := Some 0; Connect.added := true |}, w').
Proof.
  destruct (connect_timeout_then_late_events (λ _, "5"%string) (5 # 1)%Q
              Connect.onAdd empty_world CancelledError) as (w' & Hw & _);
    [constructor|].
  exists w'. exact Hw.
Defined.

(** ** The client: connecting *)

Section ClientConnect.
Import Client ClientFrames.
Context {session : Type}.
Implicit Types st : Stomp (session := session).

Lemma sleeps_app l1 l2 : sleeps (l1 ++ l2) = sleeps l1 ++ sleeps l2.
Proof. unfold sleeps. apply filter_app. Qed.

Lemma sleep_slept delay st : slept (_sleep delay st) = slept st ++ sleeps [delay].
Proof.
  unfold _sleep, sleeps. rewrite filter_cons, filter_nil.
  destruct (Qeq_bool delay 0) eqn:E; simpl; [by rewrite app_nil_r | done].
Qed.

Lemma sleep_warnings delay st : warnings (log (_sleep delay st)) = warnings (log st).
Proof.
  unfold _sleep, warnings. destruct (Qeq_bool delay 0); simpl; [done|].
  rewrite omap_app. simpl. by rewrite app_nil_r.
Qed.

Lemma loop_step_fail b delay rest st e :
  network st (attempts st) b = Raise e →
  ∃ st', connectEndpoint_loop (Candidate b delay rest) st = connectEndpoint_loop rest st'
         ∧ network st' = network st
         ∧ attempts st' = S (attempts st)
         ∧ slept st' = slept st ++ sleeps [delay]
         ∧ warnings (log st') = warnings (log st) ++ [CouldNotConnect b e]
         ∧ __protocol st' = __protocol st
         ∧ sends st' = sends st
         ∧ lost st' = lost st.
Proof.
  intros He. cbn [connectEndpoint_loop]. unfold endpoint_connect.
  pose proof (sleep_slept delay st) as Hsl.
  pose proof (sleep_warnings delay st) as Hwl.
  assert (Hsame : network (_sleep delay st) = network st
                  ∧ attempts (_sleep delay st) = attempts st
                  ∧ __protocol (_sleep delay st) = __protocol st
                  ∧ sends (_sleep delay st) = sends st
                  ∧ lost (_sleep delay st) = lost st).
  { unfold _sleep. by destruct (Qeq_bool delay 0). }
  destruct Hsame as (Hn & Ha & Hp & Hs & Hl).
  generalize dependent (_sleep delay st). intros st0 Hsl Hwl Hn Ha Hp Hs Hl.
  simpl. rewrite Hn, Ha, He. eexists. split; [reflexivity|]. simpl.
  unfold warnings in *. rewrite !omap_app. simpl. rewrite app_nil_r, Hwl.
  by repeat split.
Qed.

Lemma loop_step_ok b delay rest st p :
  network st (attempts st) b = Return p →
  ∃ st', connectEndpoint_loop (Candidate b delay rest) st = (Return (Some p), st')
         ∧ attempts st' = S (attempts st)
         ∧ slept st' = slept st ++ sleeps [delay]
         ∧ warnings (log st') = warnings (log st)
         ∧ __protocol st' = __protocol st
         ∧ sends st' = sends st
         ∧ lost st' = lost st.
Proof.
  intros He. cbn [connectEndpoint_loop]. unfold endpoint_connect.
  pose proof (sleep_slept delay st) as Hsl.
  pose proof (sleep_warnings delay st) as Hwl.
  assert (Hsame : network (_sleep delay st) = network st
                  ∧ attempts (_sleep delay st) = attempts st
                  ∧ __protocol (_sleep delay st) = __protocol st
                  ∧ sends (_sleep delay st) = sends st
                  ∧ lost (_sleep delay st) = lost st).
  { unfold _sleep. by destruct (Qeq_bool delay 0). }
  destruct Hsame as (Hn & Ha & Hp & Hs & Hl).
  generalize dependent (_sleep delay st). intros st0 Hsl Hwl Hn Ha Hp Hs Hl.
  simpl. rewrite Hn, Ha, He. eexists. split; [reflexivity|]. simpl.
  unfold warnings in *. rewrite !omap_app. simpl. rewrite app_nil_r, Hwl.
  by repeat split.
Qed.

(** The failing candidates at the head of the sequence are gone through, one
    attempt, one sleep and one warning each. *)
Lemma connectEndpoint_loop_prepend before f st :
  (∀ i bd, before !! i = Some bd →
           ∃ e, network st (attempts st + i) bd.1 = Raise e) →
  ∃ st1, connectEndpoint_loop (prepend before f) st = connectEndpoint_loop f st1
         ∧ network st1 = network st
         ∧ attempts st1 = attempts st + length before
         ∧ slept st1 = slept st ++ sleeps before.*2
         ∧ length (warnings (log st1)) = length (warnings (log st)) + length before
         ∧ __protocol st1 = __protocol st
         ∧ sends st1 = sends st
         ∧ lost st1 = lost st.
Proof.
  revert st; induction before as [|[b delay] before IH]; intros st Hfail.
  - exists st. simpl. rewrite app_nil_r, !Nat.add_0_r. by repeat split.
  - destruct (Hfail 0 (b, delay) eq_refl) as [e He]. rewrite Nat.add_0_r in He.
    change (prepend ((b, delay) :: before) f)
      with (Candidate b delay (prepend before f)).
    destruct (loop_step_fail b delay (prepend before f) st e He)
      as (st0 & Hstep & Hn0 & Ha0 & Hs0 & Hw0 & Hp0 & Hsd0 & Hl0).
    destruct (IH st0) as (st1 & Hloop & Hn & Ha & Hs & Hw & Hp & Hsd & Hl).
    { intros i bd Hi. destruct (Hfail (S i) bd Hi) as [e' He'].
      exists e'. rewrite Hn0, Ha0, <- He'. f_equal. lia. }
    exists st1. rewrite Hstep, Hloop, Hn, Ha, Hs, Hw, Hp, Hsd, Hl.
    rewrite Hn0, Ha0, Hs0, Hw0, Hp0, Hsd0, Hl0.
    change (sleeps ((b, delay) :: before).*2) with (sleeps ([delay] ++ before.*2)).
    rewrite sleeps_app, <- app_assoc, length_app. simpl.
    repeat split; lia.
Qed.

(** X14.  [connect] takes the first candidate of the failover sequence that
    can be reached and none after it: every candidate before it has been
    tried and has left a warning, the client has slept for the delays that
    are not 0 of the candidates tried, and the CONNECT frame goes to the
    transport.  If the handshake then succeeds the transport is kept; if it
    fails the transport is told to close, the error goes to the caller and
    the client stays unconnected. *)
Theorem connect_takes_first_reachable handshake frame st before b delay rest p :
  _failover st = prepend before (Candidate b delay rest) →
  __protocol st = None →
  (∀ i bd, before !! i = Some bd →
           ∃ e, network st (attempts st + i) bd.1 = Raise e) →
  network st (attempts st + length before) b = Return p →
  let out := connect handshake frame st in
  attempts out.2 = attempts st + S (length before)
  ∧ length (warnings (log out.2)) = length (warnings (log st)) + length before
  ∧ slept out.2 = slept st ++ sleeps (before.*2 ++ [delay])
  ∧ sends out.2 = sends st ++ [(p, frame)]
  ∧ match handshake p frame with
    | Return _ => out.1 = Return () ∧ __protocol out.2 = Some p ∧ lost out.2 = lost st
    | Raise e => out.1 = Raise e ∧ __protocol out.2 = None ∧ lost out.2 = lost st ++ [p]
    end.
Proof.
  intros Hf Hp Hfail Hok.
  destruct (connectEndpoint_loop_prepend before (Candidate b delay rest) st Hfail)
    as (st1 & Hloop & Hn & Ha & Hs & Hw & Hpr & Hsd & Hl).
  destruct (loop_step_ok b delay rest st1 p)
    as (st2 & Hstep & Ha2 & Hs2 & Hw2 & Hp2 & Hsd2 & Hl2).
  { by rewrite Hn, Ha. }
  unfold connect, _protocol, _connectEndpoint. rewrite Hp, Hf, Hloop, Hstep.
  rewrite sleeps_app, app_assoc, <- Hs, <- Hs2.
  rewrite <- Hw, <- Hw2, <- Hsd, <- Hsd2, <- Hl, <- Hl2.
  replace (attempts st + S (length before)) with (attempts st2) by lia.
  destruct (handshake p frame) as [[]|e]; simpl;
    unfold warnings; rewrite ?omap_app; simpl; rewrite ?app_nil_r;
    repeat split; congruence.
Qed.

End ClientConnect.

(** A broker that refuses, then one that accepts; the handshake succeeds. *)
Lemma connect_takes_first_reachable_witness :
  let st : Client.Stomp (session := unit) :=
    {| Client.the_session := ();
       Client._failover :=
         Client.Candidate (Client.Broker "a" 61613) 0%Q
           (Client.Candidate (Client.Broker "b" 61613) (2 # 1)%Q
              (Client.Candidate (Client.Broker "c" 61613) (4 # 1)%Q Client.Exhausted));
       Client.__protocol := None; Client._connectedSignal := None;
       Client._subscriptions := ∅; Client.log := [];
       Client.network := λ n _, match n with
                                | 0 => Raise (TransportError "Connection refused")
                                | _ => Return 7
                                end;
       Client.attempts := 0; Client.slept := []; Client.sends := [];
       Client.lost := []; Client.disconnects := [];
       Client.disconnect_running := false; Client.reactor := empty_world |} in
  let out := Client.connect (λ _ _, Return ()) (Client.Frame "CONNECT" ∅ "") st in
  Client.attempts out.2 = 2 ∧ Client.slept out.2 = [(2 # 1)%Q].
Proof.
  intros st.
  pose proof (connect_takes_first_reachable (λ _ _, Return ())
                (Client.Frame "CONNECT" ∅ "") st
                [(Client.Broker "a" 61613, 0%Q)] (Client.Broker "b" 61613) (2 # 1)%Q
                (Client.Candidate (Client.Broker "c" 61613) (4 # 1)%Q Client.Exhausted)
                7 eq_refl eq_refl) as H.
  destruct H as (Ha & _ & Hs & _).
  - intros [|i] bd Hbd; [|done]. injection Hbd as <-. by eexists.
  - reflexivity.
  - split; [exact Ha | exact Hs].
Defined.

(** ** The client: commands *)

Section ClientCommandFacts.
Import Client ClientFrames ClientCommands.
Context {session : Type}.
Implicit Types st : Stomp (session := session).

(** X15.  A subscription made and then given up leaves the subscription
    table as it was: [subscribe] records the token of the session with the
    destination, the handler and the error destination, and [unsubscribe]
    with that token removes the record; the SUBSCRIBE frame goes out, then
    the UNSUBSCRIBE frame.  When acknowledgment was asked for, the SUBSCRIBE
    frame goes out with its [ack] header set ([auto] unless the session put
    one) and the subscription is ack-managed if that mode is a client mode;
    when it was not asked for, the frame goes out as the session made it and
    the subscription is not ack-managed. *)
Theorem subscribe_unsubscribe_round_trip
    (session_subscribe :
       session → string → gmap string string → handler → option string
       → option string → StompFrame * token * session)
    (session_unsubscribe : session → token → option string → result (StompFrame * session))
    st p destination n hdrs receipt ackOn errorDestination frame tok s1 receipt' uframe s2 :
  __protocol st = Some p →
  session_subscribe (the_session st) destination hdrs (Callable n) receipt errorDestination
  = (frame, tok, s1) →
  _subscriptions st !! tok = None →
  session_unsubscribe s1 tok receipt' = Return (uframe, s2) →
  let mode := default DEFAULT_ACK_MODE (headers frame !! "ack"%string) in
  let out := subscribe session_subscribe destination (Callable n) hdrs receipt ackOn
               errorDestination st in
  let out' := unsubscribe session_unsubscribe tok receipt' out.2 in
  out.1 = Return tok
  ∧ _subscriptions out.2 !! tok
    = Some (Subscription destination (Callable n)
              (ackOn && bool_decide (mode ∈ CLIENT_ACK_MODES)) errorDestination)
  ∧ out'.1 = Return ()
  ∧ _subscriptions out'.2 = _subscriptions st
  ∧ sends out'.2
    = sends st
      ++ [(p, if ackOn
              then {| Client.command := Client.command frame;
                      headers := <["ack"%string := mode]> (headers frame);
                      body := body frame |}
              else frame);
          (p, uframe)]
  ∧ the_session out'.2 = s2.
Proof.
  intros Hp Hsub Hfree Hunsub. simpl.
  unfold subscribe, _protocol. rewrite Hp, Hsub.
  destruct ackOn; simpl;
    (split; [done|]; split; [apply lookup_insert_eq|]);
    unfold unsubscribe, _protocol; simpl; rewrite Hunsub; simpl;
    rewrite lookup_insert_eq; simpl;
    (split; [done|]; split; [by apply delete_insert_id|]);
    (split; [by rewrite <- app_assoc | done]).
Qed.

(** X16.  On a client that is not connected every command fails with the
    connection error "Not connected" and changes nothing: no frame is made
    or sent, the session is not asked for a transaction or a subscription
    token, and a handler that is not callable is not even looked at. *)
Theorem commands_need_connection
    session_subscribe session_unsubscribe session_ack session_nack
    session_begin session_abort session_commit commands_send
    (c : command) st :
  __protocol st = None →
  execute session_subscribe session_unsubscribe session_ack session_nack
    session_begin session_abort session_commit commands_send c st
  = (Raise (StompConnectionError "Not connected"), st).
Proof.
  intros Hp.
  destruct c; simpl;
    unfold send, sendFrame, ack, nack, begin, abort, commit, transaction,
      subscribe, unsubscribe, void, _protocol; by rewrite Hp.
Qed.

End ClientCommandFacts.

(** ** The client: MESSAGE frames *)

Section ClientMessageFacts.
Import Client ClientFrames.
Context {session : Type}.
Implicit Types st : Stomp (session := session).
Variable session_message : session → StompFrame → result token.
Variable session_ack : session → StompFrame → StompFrame.
Variable commands_send :
  string → string → gmap string string → option string → StompFrame.
Variable cloneFrame : StompFrame → StompFrame.
Variable call :
  nat → StompFrame → Stomp (session := session)
  → result unit * Stomp (session := session).
Variable still_running : exn.

(** X17.  Once the subscription of a MESSAGE frame has been found and the
    transport has let the handler start, [_onMessage] tells the transport
    that the handler has finished, exactly once and as the last thing it
    does: after a handler that returned, after one whose failure the hook
    dealt with, and after a hook that failed itself.  It does not raise,
    unless the call of [disconnect] it makes for a hook that failed is
    refused because an earlier one is still running: then the error of the
    refusal leaves [_onMessage], the handler reported finished all the
    same. *)
Theorem onMessage_always_finishes onMessageFailed frame st notes mid tok sub :
  headers frame !! "message-id"%string = Some mid →
  session_message (the_session st) frame = Return tok →
  _subscriptions st !! tok = Some sub →
  let out := _onMessage session_message session_ack commands_send cloneFrame call
               onMessageFailed still_running (Return ()) frame (st, notes) in
  (out.1 = Return ()
   ∨ (out.1 = Raise still_running ∧ disconnect_running out.2.1 = true))
  ∧ ∃ errors, out.2.2 = notes ++ [HandlerStarted mid] ++ (ErrorInHandler <$> errors)
                        ++ [HandlerFinished mid]
              ∧ length errors ≤ 1
              ∧ (errors = [] → out.1 = Return ()).
Proof.
  intros Hmid Htok Hsub. unfold _onMessage. simpl. rewrite Hmid, Htok, Hsub.
  unfold handle.
  assert (Hfail : ∀ st3 e',
    let r := disconnect still_running e' st3 in
    (r.1 = Return () ∨ (r.1 = Raise still_running ∧ disconnect_running r.2 = true))).
  { intros st3 e'. unfold disconnect, exclusive.
    destruct (disconnect_running st3) eqn:E; simpl; [right | left]; done. }
  destruct (call_handler call (sub_handler sub) frame st) as [[[]|e] st1].
  - destruct (ack_if session_ack (sub_ack sub) frame st1) as [[[]|e] st2].
    + split; [by left|]. exists []. simpl.
      split; [by rewrite <- app_assoc|]. split; [lia | done].
    + destruct (_onMessageFailed _ _ _ _ _ _ _ _) as [[[]|e'] st3];
        [destruct (ack_if _ _ _ _) as [[[]|e''] st4]|].
      * split; [by left|]. exists [e]. simpl.
        split; [by rewrite <- !app_assoc|]. split; [lia | done].
      * pose proof (Hfail st4 e'') as H.
        destruct (disconnect still_running e'' st4) as [r st5]. simpl in *.
        split; [exact H|]. exists [e]. simpl.
        split; [by rewrite <- !app_assoc|]. split; [lia | done].
      * pose proof (Hfail st3 e') as H.
        destruct (disconnect still_running e' st3) as [r st5]. simpl in *.
        split; [exact H|]. exists [e]. simpl.
        split; [by rewrite <- !app_assoc|]. split; [lia | done].
  - destruct (_onMessageFailed _ _ _ _ _ _ _ _) as [[[]|e'] st3];
      [destruct (ack_if _ _ _ _) as [[[]|e''] st4]|].
    + split; [by left|]. exists [e]. simpl.
      split; [by rewrite <- !app_assoc|]. split; [lia | done].
    + pose proof (Hfail st4 e'') as H.
      destruct (disconnect still_running e'' st4) as [r st5]. simpl in *.
      split; [exact H|]. exists [e]. simpl.
      split; [by rewrite <- !app_assoc|]. split; [lia | done].
    + pose proof (Hfail st3 e') as H.
      destruct (disconnect still_running e' st3) as [r st5]. simpl in *.
      split; [exact H|]. exists [e]. simpl.
      split; [by rewrite <- !app_assoc|]. split; [lia | done].
Qed.

(** X18.  A handler of an ack-managed subscription raises, on a connected
    client without a failure hook of its own.  With an error destination
    the frame is forwarded there, a copy made by [cloneFrame], and
    acknowledged by [sendToErrorDestination], and then acknowledged once
    more by [_onMessage]: two ACK frames for the one message.  Without an
    error destination it is acknowledged once.  Nothing is disconnected. *)
Theorem onMessage_failure_default_hook frame st notes mid tok sub n e st1 p :
  headers frame !! "message-id"%string = Some mid →
  session_message (the_session st) frame = Return tok →
  _subscriptions st !! tok = Some sub →
  sub_handler sub = Callable n →
  sub_ack sub = true →
  call n frame st = (Raise e, st1) →
  __protocol st1 = Some p →
  let out := _onMessage session_message session_ack commands_send cloneFrame call
               None still_running (Return ()) frame (st, notes) in
  let ACK := session_ack (the_session st1) frame in
  sends out.2.1
  = sends st1
    ++ match given (sub_errorDestination sub) with
       | Some dest =>
           [(p, commands_send dest (body (cloneFrame frame))
                  (headers (cloneFrame frame)) None);
            (p, ACK); (p, ACK)]
       | None => [(p, ACK)]
       end
  ∧ disconnects out.2.1 = disconnects st1
  ∧ out.2.2 = notes ++ [HandlerStarted mid; ErrorInHandler e; HandlerFinished mid].
Proof.
  intros Hmid Htok Hsub Hh Hack Hcall Hp.
  unfold _onMessage. simpl. rewrite Hmid, Htok, Hsub.
  unfold handle, call_handler. rewrite Hh, Hcall, Hack.
  unfold _onMessageFailed, sendToErrorDestination.
  destruct (given (sub_errorDestination sub)) as [dest|]; simpl.
  - unfold send, ack, ack_if, _protocol. simpl. rewrite Hp. simpl. rewrite Hp. simpl.
    rewrite Hp. simpl. rewrite <- !app_assoc. by repeat split.
  - unfold ack, ack_if, _protocol. rewrite Hp. simpl.
    rewrite <- !app_assoc. by repeat split.
Qed.

(** X19.  When the failure hook itself raises, the client calls
    [disconnect] with that exception and does not acknowledge the frame
    after the hook; the handler is still reported finished.  If no call of
    [disconnect] is running, the call is let in and [_onMessage] returns; if
    one is, the call is refused, no failure is added, and the error of the
    refusal leaves [_onMessage]. *)
Theorem onMessage_hook_failure_disconnects hook frame st notes mid tok sub n e st1 e' st2 :
  headers frame !! "message-id"%string = Some mid →
  session_message (the_session st) frame = Return tok →
  _subscriptions st !! tok = Some sub →
  sub_handler sub = Callable n →
  call n frame st = (Raise e, st1) →
  hook e frame (sub_errorDestination sub) st1 = (Raise e', st2) →
  let out := _onMessage session_message session_ack commands_send cloneFrame call
               (Some hook) still_running (Return ()) frame (st, notes) in
  (if disconnect_running st2
   then out.1 = Raise still_running ∧ disconnects out.2.1 = disconnects st2
   else out.1 = Return () ∧ disconnects out.2.1 = disconnects st2 ++ [e'])
  ∧ sends out.2.1 = sends st2
  ∧ out.2.2 = notes ++ [HandlerStarted mid; ErrorInHandler e; HandlerFinished mid].
Proof.
  intros Hmid Htok Hsub Hh Hcall Hhook.
  unfold _onMessage. simpl. rewrite Hmid, Htok, Hsub.
  unfold handle, call_handler. rewrite Hh, Hcall.
  unfold _onMessageFailed. rewrite Hhook. unfold disconnect, exclusive.
  destruct (disconnect_running st2); simpl;
    rewrite <- !app_assoc; by repeat split.
Qed.

End ClientMessageFacts.

(** ** The client: waiting for the CONNECTED frame *)

Section ClientWaitFacts.
Import Client ClientFrames ClientCommands.
Context {session : Type}.
Implicit Types st : Stomp (session := session).

(** A pending deferred that a single delayed call acts on ends as that call
    leaves it, whatever else the reactor runs. *)
Lemma run_until_sole n d c w :
  called d w = false →
  c ∈ delayed w →
  target (call_action c) = d →
  Forall (λ c', c' = c ∨ (target (call_action c') ≠ d ∧ call_id c' ≠ call_id c))
         (delayed w) →
  length (delayed w) ≤ n →
  deferreds (run_until n d w) !! d = Some (Some (outcome_of (call_action c))).
Proof.
  revert w; induction n as [|n IH]; intros w Hpend Hin Htgt Hall Hlen.
  { destruct (delayed w); [by apply elem_of_nil in Hin | simpl in Hlen; lia]. }
  simpl. rewrite Hpend.
  destruct (earliest_nonempty _ _ Hin) as [c0 Hc0]. rewrite Hc0.
  pose proof (earliest_elem _ _ Hc0) as Hc0in.
  rewrite Forall_forall in Hall.
  destruct (Hall c0 Hc0in) as [->|[Hne Hid]].
  - assert (Hd : deferreds (Twisted.fire c w) !! d
                 = Some (Some (outcome_of (call_action c)))).
    { unfold Twisted.fire. destruct (call_action c) as [d' v|d' e|d'];
        simpl in *; subst d';
        unfold callback, errback, cancel, called in *; simpl;
        destruct (deferreds w !! d) as [[?|]|]; try done; simpl;
        by rewrite lookup_insert_eq. }
    rewrite run_until_called; [done|]. unfold called. by rewrite Hd.
  - apply IH.
    + rewrite <- Hpend. apply called_lookup. unfold Twisted.fire.
      by rewrite deferreds_exec_other.
    + unfold Twisted.fire. rewrite delayed_exec. simpl.
      apply list_elem_of_filter. split; [congruence | done].
    + done.
    + unfold Twisted.fire. rewrite delayed_exec. simpl.
      apply Forall_forall. intros c' [_ Hc']%list_elem_of_filter. by apply Hall.
    + unfold Twisted.fire. rewrite delayed_exec.
      pose proof (unschedule_length (call_id c0) w c0 Hc0in eq_refl). simpl in *. lia.
Qed.

(** X20.  With a connected timeout and no frame from the broker, the wait
    for the CONNECTED frame ends in [CancelledError]; the signal is cleared,
    so that an ERROR frame coming later is not taken for an answer to the
    CONNECT frame, and nothing else of the client changes. *)
Theorem waitConnected_times_out t st :
  Qeq_bool t 0 = false →
  Forall (λ c, target (call_action c) ≠ fresh (reactor st)
               ∧ call_id c < fresh (reactor st)) (delayed (reactor st)) →
  let out := _waitConnected (Some t) st in
  out.1 = Some (Raise CancelledError)
  ∧ _connectedSignal out.2 = None
  ∧ deferreds (reactor out.2) !! fresh (reactor st)
    = Some (Some (Failed CancelledError))
  ∧ __protocol out.2 = __protocol st
  ∧ sends out.2 = sends st
  ∧ disconnects out.2 = disconnects st.
Proof.
  intros Ht Hall. unfold _waitConnected. simpl. rewrite Ht. simpl.
  set (d := fresh (reactor st)).
  set (c := DelayedCall (S d) (now (reactor st) + t)%Q (DoCancel d)).
  match goal with |- context [run_until ?n d ?w] =>
    pose proof (run_until_sole n d c w) as Hrun;
    set (w2 := run_until n d w) in * end.
  assert (Hd : deferreds w2 !! d = Some (Some (Failed CancelledError))).
  { apply Hrun.
    - unfold called. simpl. by rewrite lookup_insert_eq.
    - simpl. apply elem_of_app. right. left.
    - done.
    - simpl. apply Forall_app. split; [|apply Forall_singleton; by left].
      eapply Forall_impl; [exact Hall|]. simpl. intros c' [Hc1 Hc2]. right.
      split; [done|]. fold d in Hc2. lia.
    - done. }
  rewrite Hd. simpl. by rewrite Hd.
Qed.

(** X21.  Without timeout, the wait for the CONNECTED frame ends as the one
    thing that fires the signal leaves it: it returns when the CONNECTED
    frame fires it, and it raises the protocol error of an ERROR frame that
    fails it; in either case the signal is cleared afterwards. *)
Theorem waitConnected_follows_signal c st :
  c ∈ delayed (reactor st) →
  target (call_action c) = fresh (reactor st) →
  Forall (λ c', c' = c ∨ (target (call_action c') ≠ fresh (reactor st)
                          ∧ call_id c' ≠ call_id c)) (delayed (reactor st)) →
  let out := _waitConnected None st in
  out.1 = Some match outcome_of (call_action c) with
               | Fired _ => Return ()
               | Failed e => Raise e
               end
  ∧ _connectedSignal out.2 = None
  ∧ __protocol out.2 = __protocol st
  ∧ sends out.2 = sends st.
Proof.
  intros Hin Htgt Hall. unfold _waitConnected. simpl.
  set (d := fresh (reactor st)) in *.
  match goal with |- context [run_until ?n d ?w] =>
    pose proof (run_until_sole n d c w) as Hrun;
    set (w2 := run_until n d w) in * end.
  assert (Hd : deferreds w2 !! d = Some (Some (outcome_of (call_action c)))).
  { apply Hrun; try done. unfold called. simpl. by rewrite lookup_insert_eq. }
  rewrite Hd. by destruct (outcome_of (call_action c)).
Qed.

End ClientWaitFacts.

(** ** The client: the properties at work *)

(** A subscription to [/queue/b], given up again, once with acknowledgment
    asked for and once without: only the first SUBSCRIBE frame gets the
    [ack] header. *)
Lemma subscribe_unsubscribe_round_trip_witness :
  let session_subscribe (_ : unit) (destination : string) (hdrs : gmap string string)
        (_ : Client.handler) (_ _ : option string) :=
    (Client.Frame "SUBSCRIBE" hdrs "", ("id"%string, "1"%string), ()) in
  let session_unsubscribe (_ : unit) (t : Client.token) (_ : option string) :=
    Return (Client.Frame "UNSUBSCRIBE" {[t.1 := t.2]} "", ()) in
  let round (ackOn : bool) :=
    Client.unsubscribe session_unsubscribe ("id"%string, "1"%string) None
      (Client.subscribe session_subscribe "/queue/b" (Client.Callable 3) ∅ None
         ackOn None Sample.connected).2 in
  Client._subscriptions (round true).2 = Client._subscriptions Sample.connected
  ∧ Client.sends (round true).2
    = [(1, Client.Frame "SUBSCRIBE" {["ack" := "auto"]} "");
       (1, Client.Frame "UNSUBSCRIBE" {["id" := "1"]} "")]
  ∧ Client._subscriptions (round false).2 = Client._subscriptions Sample.connected
  ∧ Client.sends (round false).2
    = [(1, Client.Frame "SUBSCRIBE" ∅ "");
       (1, Client.Frame "UNSUBSCRIBE" {["id" := "1"]} "")].
Proof.
  intros session_subscribe session_unsubscribe round.
  pose proof (subscribe_unsubscribe_round_trip session_subscribe session_unsubscribe
                Sample.connected 1 "/queue/b" 3 ∅ None true None
                (Client.Frame "SUBSCRIBE" ∅ "") ("id"%string, "1"%string) () None
                (Client.Frame "UNSUBSCRIBE" {["id"%string := "1"%string]} "") ()
                eq_refl eq_refl eq_refl eq_refl) as (_ & _ & _ & Hrt & Hs & _).
  pose proof (subscribe_unsubscribe_round_trip session_subscribe session_unsubscribe
                Sample.connected 1 "/queue/b" 3 ∅ None false None
                (Client.Frame "SUBSCRIBE" ∅ "") ("id"%string, "1"%string) () None
                (Client.Frame "UNSUBSCRIBE" {["id"%string := "1"%string]} "") ()
                eq_refl eq_refl eq_refl eq_refl) as (_ & _ & _ & Hrt' & Hs' & _).
  split; [exact Hrt|]. split; [exact Hs|]. split; [exact Hrt' | exact Hs'].
Defined.

(** A subscription with a handler that is not callable, asked of a client
    that is not connected. *)
Lemma commands_need_connection_witness :
  ClientCommands.execute
    (λ _ _ hdrs _ _ _, (Client.Frame "SUBSCRIBE" hdrs "", Sample.token, ()))
    (λ _ _ _, Return (Client.Frame "UNSUBSCRIBE" ∅ "", ()))
    Sample.session_ack Sample.session_ack
    (λ _, (Client.Frame "BEGIN" ∅ "", "t1"%string, ()))
    (λ _ t, (Client.Frame "ABORT" ∅ "", t, ()))
    (λ _ t, (Client.Frame "COMMIT" ∅ "", t, ()))
    Sample.commands_send
    (ClientFrames.Subscribe "/queue/a" (Client.NotCallable "None") ∅ None true None)
    Sample.idle
  = (Raise (StompConnectionError "Not connected"), Sample.idle).
Proof.
  apply (commands_need_connection
           (λ _ _ hdrs _ _ _, (Client.Frame "SUBSCRIBE" hdrs "", Sample.token, ()))).
  reflexivity.
Defined.

(** The handler of the sample subscription raises; there is no failure hook
    and the subscription has an error destination. *)
Lemma onMessage_always_finishes_witness :
  let out :=
    ClientFrames._onMessage Sample.session_message Sample.session_ack
      Sample.commands_send id Sample.failing None
      (RuntimeError "disconnect still running") (Return ()) Sample.message
      (Sample.connected, []) in
  ∃ errors,
    out.2.2
    = [] ++ [ClientFrames.HandlerStarted "m1"]
      ++ (ClientFrames.ErrorInHandler <$> errors)
      ++ [ClientFrames.HandlerFinished "m1"]
    ∧ length errors ≤ 1
    ∧ (errors = [] → out.1 = Return ()).
Proof.
  exact (proj2 (onMessage_always_finishes Sample.session_message Sample.session_ack
                  Sample.commands_send id Sample.failing
                  (RuntimeError "disconnect still running") None Sample.message
                  Sample.connected [] "m1" Sample.token
                  (Client.Subscription "/queue/a" (Client.Callable 0) true
                     (Some "/queue/errors"))
                  eq_refl eq_refl eq_refl)).
Defined.

Lemma onMessage_failure_default_hook_witness :
  let ACK := Sample.session_ack () Sample.message in
  Client.sends
    (ClientFrames._onMessage Sample.session_message Sample.session_ack
       Sample.commands_send id Sample.failing None
       (RuntimeError "disconnect still running") (Return ()) Sample.message
       (Sample.connected, [])).2.1
  = [(1, Sample.commands_send "/queue/errors" "hello" {["message-id" := "m1"]} None);
     (1, ACK); (1, ACK)].
Proof.
  exact (proj1 (onMessage_failure_default_hook Sample.session_message
                  Sample.session_ack Sample.commands_send id Sample.failing
                  (RuntimeError "disconnect still running")
                  Sample.message Sample.connected [] "m1" Sample.token
                  (Client.Subscription "/queue/a" (Client.Callable 0) true
                     (Some "/queue/errors"))
                  0 (RuntimeError "boom") Sample.connected 1
                  eq_refl eq_refl eq_refl eq_refl eq_refl eq_refl eq_refl)).
Defined.

(** A failure hook that raises itself, while no call of [disconnect] is
    running. *)
Lemma onMessage_hook_failure_disconnects_witness :
  let out :=
    ClientFrames._onMessage Sample.session_message Sample.session_ack
      Sample.commands_send id Sample.failing
      (Some (λ _ _ _ st, (Raise (RuntimeError "hook"), st)))
      (RuntimeError "disconnect still running")
      (Return ()) Sample.message (Sample.connected, []) in
  out.1 = Return () ∧ Client.disconnects out.2.1 = [RuntimeError "hook"].
Proof.
  exact (proj1 (onMessage_hook_failure_disconnects Sample.session_message
                  Sample.session_ack Sample.commands_send id Sample.failing
                  (RuntimeError "disconnect still running")
                  (λ _ _ _ st, (Raise (RuntimeError "hook"), st))
                  Sample.message Sample.connected [] "m1" Sample.token
                  (Client.Subscription "/queue/a" (Client.Callable 0) true
                     (Some "/queue/errors"))
                  0 (RuntimeError "boom") Sample.connected
                  (RuntimeError "hook") Sample.connected
                  eq_refl eq_refl eq_refl eq_refl eq_refl eq_refl)).
Defined.

(** A connected timeout of five seconds and a broker that stays silent. *)
Lemma waitConnected_times_out_witness :
  (ClientFrames._waitConnected (Some (5 # 1)%Q) Sample.idle).1
  = Some (Raise CancelledError).
Proof.
  refine (proj1 (waitConnected_times_out (5 # 1)%Q Sample.idle eq_refl _)).
  constructor.
Defined.

(** The CONNECTED frame is on its way: the reactor will fire the signal. *)
Lemma waitConnected_follows_signal_witness :
  let st := Client.with_network (Client.network Sample.idle) Sample.idle in
  let st' : Client.Stomp (session := unit) :=
    {| Client.the_session := (); Client._failover := Client.Exhausted;
       Client.__protocol := None; Client._connectedSignal := None;
       Client._subscriptions := ∅; Client.log := [];
       Client.network := Client.network st;
       Client.attempts := 0; Client.slept := []; Client.sends := [];
       Client.lost := []; Client.disconnects := [];
       Client.disconnect_running := false;
       Client.reactor :=
         {| now := 0%Q; fresh := 0; deferreds := ∅;
            delayed := [DelayedCall 1 (1 # 10)%Q (DoCallback 0 VNone)] |} |} in
  (ClientFrames._waitConnected None st').1 = Some (Return ()).
Proof.
  intros st st'.
  refine (proj1 (waitConnected_follows_signal
                   (DelayedCall 1 (1 # 10)%Q (DoCallback 0 VNone)) st' _ eq_refl _)).
  - left.
  - apply Forall_singleton. by left.
Defined.
